(** * Version manager: a shallow embedding of [scripts/version_manager.py]

    The development models the [VersionManager] class and the [main] entry
    point of the script: the canonical [VERSION] file, the in-memory version,
    the regular-expression rewrites of the dependent files, the generated
    [version.ts] file and the version bump.

    Modelling conventions.
    - A Python [str] is a Rocq [string]; a character is a code point below 256,
      so the only decimal digits are [0-9] and the white space characters are
      the twelve code points for which [str.isspace] holds in that range.
    - Python integers are unbounded: they are values of [N].
    - The file system is a finite map from resolved paths (tuples of path
      components, as [pathlib] keeps them) to nodes; opening a file can raise
      the [OSError]s a missing file, a directory or a missing permission
      cause. A write replaces the whole content or fails without effect.
    - [print] appends a line to the console, kept in the state.
    - Methods that can raise run in a state-and-exception monad. *)

From Stdlib Require Import Ascii String NArith DecimalString DecimalN DecimalFacts.
From stdpp Require Import base option list strings gmap.

(** ** Characters and text *)

Module Text.
Local Open Scope char_scope.

(** [Py_UNICODE_ISSPACE] on code points below 256; both [str.strip] and the
    regular-expression class [\s] use it. *)
Definition is_space (c : ascii) : bool :=
  match c with
  | "009" | "010" | "011" | "012" | "013"
  | "028" | "029" | "030" | "031" | " "
  | "133" | "160" => true
  | _ => false
  end.

(** The class [\d] on code points below 256. *)
Definition is_digit (c : ascii) : bool :=
  match c with
  | "0" | "1" | "2" | "3" | "4" | "5" | "6" | "7" | "8" | "9" => true
  | _ => false
  end.

Definition is_char (a : ascii) (c : ascii) : bool := Ascii.eqb a c.

(** The double quote character. *)
Definition dq : ascii := "034".

(** The class of every character but the double quote. *)
Definition not_quote (c : ascii) : bool := negb (Ascii.eqb dq c).

Definition newline : ascii := "010".

Fixpoint lstrip (s : string) : string :=
  match s with
  | String c s' => if is_space c then lstrip s' else s
  | EmptyString => EmptyString
  end.

Fixpoint rstrip (s : string) : string :=
  match s with
  | String c s' =>
      match rstrip s' with
      | EmptyString => if is_space c then EmptyString else String c EmptyString
      | r => String c r
      end
  | EmptyString => EmptyString
  end.

(** [s.strip()] *)
Definition strip (s : string) : string := rstrip (lstrip s).

(** [s.split(sep)] for a one-character separator. *)
Fixpoint split (sep : ascii) (s : string) : list string :=
  match s with
  | EmptyString => [EmptyString]
  | String c s' =>
      if Ascii.eqb c sep then EmptyString :: split sep s'
      else match split sep s' with
           | h :: t => String c h :: t
           | [] => [String c EmptyString]
           end
  end.

Definition all_chars (p : ascii → bool) (s : string) : bool :=
  forallb p (list_ascii_of_string s).

(** [str(n)] for a non-negative integer. *)
Definition str (n : N) : string := NilEmpty.string_of_uint (N.to_uint n).

(** [int(s)] on a non-empty string of decimal digits; any other argument is
    answered with [None], which stands for [ValueError]. (Python's [int]
    also accepts a sign, surrounding white space and underscores; the parts
    of a validated version never have them.) *)
Definition int (s : string) : option N :=
  match s with
  | EmptyString => None
  | _ => N.of_uint <$> NilEmpty.uint_of_string s
  end.

End Text.

(** ** Regular expressions

    The fragment of Python's [re] syntax the script uses: a sequence of items,
    each a character class taken once, zero or more times ([*]) or one or more
    times ([+]), all greedy, with an optional [^] in front and an optional [$]
    as an item. Matching is by backtracking, longest repetition first, as in
    the [sre] engine. *)

Module Re.
Import Text.
Local Open Scope char_scope.

Inductive item : Type :=
| Chr (cls : ascii → bool)      (* one character of the class *)
| Star (cls : ascii → bool)     (* cls* *)
| Plus (cls : ascii → bool)     (* cls+ *)
| Dollar.                        (* $ without MULTILINE *)

Inductive anchor : Type :=
| Unanchored
| Caret                          (* ^ without MULTILINE *)
| CaretMultiline.                (* ^ with MULTILINE *)

Record regex : Type := Regex { anchored : anchor; body : list item }.

(** [lit "abc"] is the pattern text [abc] of ordinary characters. *)
Fixpoint lit (s : string) : list item :=
  match s with
  | EmptyString => []
  | String c s' => Chr (is_char c) :: lit s'
  end.

(** Greedy repetition with continuation [k]: take as many characters as
    possible, give them back one by one while [k] fails. The result is the
    number of characters matched. *)
Fixpoint star (cls : ascii → bool) (k : string → option nat) (s : string)
  : option nat :=
  match s with
  | String c s' =>
      if cls c then
        match star cls k s' with
        | Some n => Some (S n)
        | None => k s
        end
      else k s
  | EmptyString => k s
  end.

Fixpoint match_here (its : list item) (s : string) : option nat :=
  match its with
  | [] => Some 0
  | Chr cls :: rest =>
      match s with
      | String c s' => if cls c then S <$> match_here rest s' else None
      | EmptyString => None
      end
  | Star cls :: rest => star cls (match_here rest) s
  | Plus cls :: rest =>
      match s with
      | String c s' =>
          if cls c then S <$> star cls (match_here rest) s' else None
      | EmptyString => None
      end
  | Dollar :: rest =>
      match s with
      | EmptyString | String "010" EmptyString => match_here rest s
      | _ => None
      end
  end.

(** Whether the position after [prev] (the character before it, [None] at
    the start of the text) satisfies the anchor. *)
Definition anchor_ok (a : anchor) (prev : option ascii) : bool :=
  match a, prev with
  | Unanchored, _ => true
  | Caret, None => true
  | Caret, Some _ => false
  | CaretMultiline, None => true
  | CaretMultiline, Some c => Ascii.eqb c newline
  end.

(** A match attempt at one position: the length of the match. *)
Definition match_at (re : regex) (prev : option ascii) (s : string)
  : option nat :=
  if anchor_ok (anchored re) prev then match_here (body re) s else None.

(** [re.match(re, s)] as a truth value. *)
Definition re_match (re : regex) (s : string) : bool :=
  match match_at re None s with Some _ => true | None => false end.

(** [re.search(re, s)] as a truth value: the first position with a match. *)
Fixpoint search_from (re : regex) (prev : option ascii) (s : string) : bool :=
  match match_at re prev s with
  | Some _ => true
  | None =>
      match s with
      | String c s' => search_from re (Some c) s'
      | EmptyString => false
      end
  end.

Definition re_search (re : regex) (s : string) : bool :=
  search_from re None s.

(** [re.sub(re, repl, s)] for a replacement text without backslash (the
    replacement template is then the text itself). [skip] counts the
    characters of the current match that are still to be dropped. *)
Fixpoint sub_from (re : regex) (repl : string) (skip : nat)
    (prev : option ascii) (s : string) : string :=
  match s with
  | String c s' =>
      match skip with
      | S k => sub_from re repl k (Some c) s'
      | 0 =>
          match match_at re prev s with
          | Some (S n) => repl +:+ sub_from re repl n (Some c) s'
          | Some 0 => repl +:+ String c (sub_from re repl 0 (Some c) s')
          | None => String c (sub_from re repl 0 (Some c) s')
          end
      end
  | EmptyString =>
      match skip, match_at re prev s with
      | 0, Some _ => repl
      | _, _ => EmptyString
      end
  end.

Definition re_sub (re : regex) (repl : string) (s : string) : string :=
  sub_from re repl 0 None s.

End Re.

Import Text Re.

(** ** Exceptions, the file system and the console *)

Module Py.

(** A resolved path: the tuple of its components ([PurePath.parts]); the
    current directory is the empty tuple. *)
Abbreviation path := (list string).

(** [p / name] *)
Definition pjoin (p : path) (name : string) : path := p ++ [name].
Infix "</>" := pjoin (at level 40, left associativity).

(** [p.parent] *)
Definition parent (p : path) : path := removelast p.

(** [str(p)] *)
Fixpoint join_parts (p : path) : string :=
  match p with
  | [] => EmptyString
  | [name] => name
  | name :: rest => name +:+ "/" +:+ join_parts rest
  end.
Definition path_str (p : path) : string :=
  match p with [] => "." | _ => join_parts p end.

Inductive exn : Type :=
| FileNotFoundError (msg : string)
| PermissionError (msg : string)
| IsADirectoryError (msg : string)
| NotADirectoryError (msg : string)
| ValueError (msg : string).

(** [str(e)] *)
Definition exn_str (e : exn) : string :=
  match e with
  | FileNotFoundError m | PermissionError m | IsADirectoryError m
  | NotADirectoryError m | ValueError m => m
  end.

Inductive result (A : Type) : Type :=
| Ret (a : A)
| Raise (e : exn).
Arguments Ret {A} a.
Arguments Raise {A} e.

(** A regular file carries its permission bits for the running process. *)
Inductive node : Type :=
| File (readable writable : bool) (content : string)
| Directory.

(** [p.exists()] *)
Definition path_exists (fs : gmap path node) (p : path) : bool :=
  match fs !! p with Some _ => true | None => false end.

(** [open(p, 'r').read()] *)
Definition read_file (fs : gmap path node) (p : path) : result string :=
  match fs !! p with
  | Some (File true _ content) => Ret content
  | Some (File false _ _) => Raise (PermissionError (path_str p))
  | Some Directory => Raise (IsADirectoryError (path_str p))
  | None => Raise (FileNotFoundError (path_str p))
  end.

(** [open(p, 'w').write(content)]: an existing file is overwritten, a
    missing one is created when its parent is a directory. *)
Definition write_file (fs : gmap path node) (p : path) (content : string)
  : result (gmap path node) :=
  match fs !! p with
  | Some (File r true _) => Ret (<[p := File r true content]> fs)
  | Some (File _ false _) => Raise (PermissionError (path_str p))
  | Some Directory => Raise (IsADirectoryError (path_str p))
  | None =>
      match fs !! parent p with
      | Some Directory => Ret (<[p := File true true content]> fs)
      | Some (File _ _ _) => Raise (NotADirectoryError (path_str p))
      | None => Raise (FileNotFoundError (path_str p))
      end
  end.

(** A printed line; the constructor stands for the sign in front of it. *)
Inductive line : Type :=
| Success (text : string)
| Warning (text : string)
| Failure (text : string)
| Plain (text : string).

End Py.

Import Py.

(** ** The manager and its environment *)

(** The fields of the one [VersionManager] object ([self.project_root],
    [self.version]; [self.version_file] is [project_root / VERSION]) together
    with the file system and the console it acts on. *)
Record state : Type := State {
  project_root : path;
  version : string;
  files : gmap path node;
  console : list line
}.

(** The environment of the process before a manager exists. *)
Record world : Type := World {
  w_files : gmap path node;
  w_console : list line
}.

Definition version_file (st : state) : path := project_root st </> "VERSION".

Definition with_files (fs : gmap path node) (st : state) : state :=
  State (project_root st) (version st) fs (console st).
Definition with_version (v : string) (st : state) : state :=
  State (project_root st) v (files st) (console st).
Definition log (l : line) (st : state) : state :=
  State (project_root st) (version st) (files st) (console st ++ [l]).

(** State and exceptions. *)
Definition M (A : Type) : Type := state → result A * state.

#[export] Instance M_ret : MRet M := λ A a st, (Ret a, st).
#[export] Instance M_bind : MBind M := λ A B f m st,
  match m st with
  | (Ret a, st') => f a st'
  | (Raise e, st') => (Raise e, st')
  end.

Definition raise {A} (e : exn) : M A := λ st, (Raise e, st).
Definition get : M state := λ st, (Ret st, st).
Definition print (l : line) : M unit := λ st, (Ret tt, log l st).

(** [try: body except Exception as e: handler e] *)
Definition try_except {A} (body : M A) (handler : exn → M A) : M A := λ st,
  match body st with
  | (Ret a, st') => (Ret a, st')
  | (Raise e, st') => handler e st'
  end.

Definition read_text (p : path) : M string := λ st,
  (read_file (files st) p, st).
Definition write_text (p : path) (content : string) : M unit := λ st,
  match write_file (files st) p content with
  | Ret fs => (Ret tt, with_files fs st)
  | Raise e => (Raise e, st)
  end.
Definition set_version (v : string) : M unit := λ st,
  (Ret tt, with_version v st).

(** ** The patterns of the script *)

(** [^\d+\.\d+\.\d+$] *)
Definition version_re : regex :=
  Regex Caret [Plus is_digit; Chr (is_char "."%char); Plus is_digit;
               Chr (is_char "."%char); Plus is_digit; Dollar].

(** [^version\s*=\s*QUOTE[^QUOTE]*QUOTE] with [re.MULTILINE], where QUOTE is
    the double quote. *)
Definition backend_re : regex :=
  Regex CaretMultiline
    (lit "version" ++
     [Star is_space; Chr (is_char "="%char); Star is_space;
      Chr (is_char dq); Star not_quote; Chr (is_char dq)]).

(** [QUOTEversionQUOTE:\s*QUOTE[^QUOTE]*QUOTE] *)
Definition frontend_re : regex :=
  Regex Unanchored
    (lit (String dq "version" +:+ String dq ":") ++
     [Star is_space; Chr (is_char dq); Star not_quote; Chr (is_char dq)]).

(** [return '1\.0\.0'] *)
Definition typescript_re : regex := Regex Unanchored (lit "return '1.0.0'").

(** [s] between double quotes. *)
Definition quoted (s : string) : string := String dq (s +:+ String dq EmptyString).

Definition backend_line (v : string) : string := "version = " +:+ quoted v.
Definition frontend_line (v : string) : string :=
  quoted "version" +:+ ": " +:+ quoted v.
Definition typescript_line (v : string) : string := "return '" +:+ v +:+ "'".

(** ** [VersionManager] *)

Definition _read_version (version_file : path) (fs : gmap path node)
  : result string :=
  if negb (path_exists fs version_file) then
    Raise (FileNotFoundError ("VERSION file not found at " +:+ path_str version_file))
  else
    match read_file fs version_file with
    | Raise e => Raise e
    | Ret text =>
        let version := strip text in
        if negb (re_match version_re version) then
          Raise (ValueError ("Invalid version format: " +:+ version))
        else Ret version
    end.

(** [VersionManager(project_root)] *)
Definition VersionManager (root : path) (w : world) : result state :=
  match _read_version (root </> "VERSION") (w_files w) with
  | Ret v => Ret (State root v (w_files w) (w_console w))
  | Raise e => Raise e
  end.

(** The paths of the target files. *)
Definition cargo_file (st : state) : path :=
  project_root st </> "backend" </> "Cargo.toml".
Definition package_file (st : state) : path :=
  project_root st </> "frontend" </> "package.json".
Definition header_file (st : state) : path :=
  project_root st </> "frontend" </> "src" </> "version.ts".

Definition update_backend_version : M bool :=
  self ← get;
  let cargo_file := cargo_file self in
  if negb (path_exists (files self) cargo_file) then
    print (Warning ("Backend Cargo.toml not found at " +:+ path_str cargo_file));;
    mret false
  else
    try_except
      (content ← read_text cargo_file;
       let old_pattern := backend_re in
       let new_line := backend_line (version self) in
       if re_search old_pattern content then
         let content := re_sub old_pattern new_line content in
         write_text cargo_file content;;
         print (Success ("Backend version updated to " +:+ version self));;
         mret true
       else
         print (Warning ("Version line not found in " +:+ path_str cargo_file));;
         mret false)
      (λ e,
        print (Failure ("Error updating backend version: " +:+ exn_str e));;
        mret false).

Definition update_frontend_version : M bool :=
  self ← get;
  let package_file := package_file self in
  if negb (path_exists (files self) package_file) then
    print (Warning ("Frontend package.json not found at " +:+ path_str package_file));;
    mret false
  else
    try_except
      (content ← read_text package_file;
       let old_pattern := frontend_re in
       let new_line := frontend_line (version self) in
       if re_search old_pattern content then
         let content := re_sub old_pattern new_line content in
         write_text package_file content;;
         print (Success ("Frontend version updated to " +:+ version self));;
         mret true
       else
         print (Warning ("Version line not found in " +:+ path_str package_file));;
         mret false)
      (λ e,
        print (Failure ("Error updating frontend version: " +:+ exn_str e));;
        mret false).

Definition ts_files : list path :=
  [ ["frontend"; "src"; "services"; "AutoUpdater.ts"];
    ["frontend"; "src"; "services"; "BackendService.ts"] ].

(** One turn of the loop of [update_typescript_version]; [updated] is the
    flag before the turn, the result the flag after it. *)
Definition update_typescript_file (ts_file : path) (updated : bool) : M bool :=
  self ← get;
  let file_path := project_root self ++ ts_file in
  if negb (path_exists (files self) file_path) then
    print (Warning ("TypeScript file not found: " +:+ path_str ts_file));;
    mret updated
  else
    try_except
      (content ← read_text file_path;
       let old_pattern := typescript_re in
       let new_line := typescript_line (version self) in
       if re_search old_pattern content then
         let content := re_sub old_pattern new_line content in
         write_text file_path content;;
         print (Success ("TypeScript version updated in " +:+ path_str ts_file));;
         mret true
       else
         print (Warning ("Version string not found in " +:+ path_str ts_file));;
         mret updated)
      (λ e,
        print (Failure ("Error updating " +:+ path_str ts_file +:+ ": " +:+ exn_str e));;
        mret updated).

Fixpoint for_ts_files (l : list path) (updated : bool) : M bool :=
  match l with
  | [] => mret updated
  | ts_file :: rest =>
      updated ← update_typescript_file ts_file updated;
      for_ts_files rest updated
  end.

Definition update_typescript_version : M bool := for_ts_files ts_files false.

Definition header_content (v : string) : string :=
  "// Auto-generated version file - DO NOT EDIT MANUALLY
// This file is updated automatically by the version manager

export const APP_VERSION = '" +:+ v +:+ "';
export const APP_NAME = 'Unified Data Studio v2';

// Version information for components
export const VERSION_INFO = {
  version: '" +:+ v +:+ "',
  name: 'Unified Data Studio v2',
  buildDate: new Date().toISOString(),
  environment: process.env.NODE_ENV || 'development'
};

export default APP_VERSION;
".

Definition create_version_header : M bool :=
  self ← get;
  let header_file := header_file self in
  try_except
    (let header_content := header_content (version self) in
     write_text header_file header_content;;
     print (Success ("Version header created at " +:+ path_str header_file));;
     mret true)
    (λ e,
      print (Failure ("Error creating version header: " +:+ exn_str e));;
      mret false).

(** The result dictionary, in insertion order. *)
Definition update_all_components : M (list (string * bool)) :=
  backend ← update_backend_version;
  frontend_package ← update_frontend_version;
  typescript ← update_typescript_version;
  version_header ← create_version_header;
  mret [("backend", backend); ("frontend_package", frontend_package);
        ("typescript", typescript); ("version_header", version_header)].

(** [major, minor, patch = map(int, v.split('.'))] *)
Definition parse_triple (v : string) : result (N * N * N) :=
  match mapM int (split "."%char v) with
  | Some [major; minor; patch] => Ret (major, minor, patch)
  | Some _ => Raise (ValueError "wrong number of values to unpack")
  | None => Raise (ValueError "invalid literal for int() with base 10")
  end.

Definition render (major minor patch : N) : string :=
  str major +:+ "." +:+ str minor +:+ "." +:+ str patch.

Definition bump_version (bump_type : string) : M string :=
  self ← get;
  '(major, minor, patch) ← (λ st, (parse_triple (version self), st)) : M (N * N * N);
  '(major, minor, patch) ←
    (if String.eqb bump_type "major" then mret ((major + 1)%N, 0%N, 0%N)
     else if String.eqb bump_type "minor" then mret (major, (minor + 1)%N, 0%N)
     else if String.eqb bump_type "patch" then mret (major, minor, (patch + 1)%N)
     else raise (ValueError ("Invalid bump type: " +:+ bump_type))) : M (N * N * N);
  let new_version := render major minor patch in
  write_text (version_file self) new_version;;
  set_version new_version;;
  print (Success ("Version bumped to " +:+ new_version));;
  mret new_version.

Definition get_version_info : M (list (string * string)) :=
  self ← get;
  mret [("current_version", version self);
        ("version_file", path_str (version_file self));
        ("project_root", path_str (project_root self))].

(** ** The command line *)

Definition usage : list line :=
  [Plain "Usage: python version_manager.py <command> [options]";
   Plain "Commands:";
   Plain "  update-all     - Update version in all components";
   Plain "  bump <type>    - Bump version (major|minor|patch)";
   Plain "  info           - Show version information";
   Plain "  create-header  - Create version header file"].

Fixpoint print_all (ls : list line) : M unit :=
  match ls with
  | [] => mret tt
  | l :: rest => print l;; print_all rest
  end.

(** The body of the [try] block of [main]; [args] is [sys.argv[2:]]. *)
Definition run_command (command : string) (args : list string) : M unit :=
  if String.eqb command "update-all" then
    results ← update_all_components;
    print (Plain "Update Results:");;
    print_all
      (map (λ '(component, success),
              Plain ("  " +:+ component +:+ ": " +:+
                     if success : bool then "Success" else "Failed"))
           results)
  else if String.eqb command "bump" then
    match args with
    | [] => print (Failure "Please specify bump type: major, minor, or patch")
    | bump_type :: _ =>
        if negb (bool_decide (bump_type ∈ ["major"; "minor"; "patch"])) then
          print (Failure "Invalid bump type. Use: major, minor, or patch")
        else
          new_version ← bump_version bump_type;
          print (Plain ("Version bumped to " +:+ new_version));;
          print (Plain "Updating all components...");;
          _ ← update_all_components;
          mret tt
    end
  else if String.eqb command "info" then
    info ← get_version_info;
    print (Plain "Version Information:");;
    print_all (map (λ '(key, value), Plain ("  " +:+ key +:+ ": " +:+ value)) info)
  else if String.eqb command "create-header" then
    _ ← create_version_header;
    mret tt
  else
    print (Failure ("Unknown command: " +:+ command));;
    print (Plain "Use: update-all, bump, info, or create-header").

Definition world_of (st : state) : world := World (files st) (console st).

(** [main()] with [sys.argv = argv]: the exit status of the process and the
    environment it leaves. The manager is built for the current directory,
    outside the [try] block: an exception there ends the process with status
    1 (its traceback goes to the error stream, which is not modelled). *)
Definition main (argv : list string) (w : world) : nat * world :=
  match argv with
  | [] | [_] => (0, World (w_files w) (w_console w ++ usage))
  | _ :: command :: args =>
      match VersionManager [] w with
      | Raise e => (1, w)
      | Ret manager =>
          match run_command command args manager with
          | (Ret _, st) => (0, world_of st)
          | (Raise e, st) =>
              (1, world_of (log (Failure ("Error: " +:+ exn_str e)) st))
          end
      end
  end.

(** ** Specification-side notions *)

(** A non-empty text of decimal digits. *)
Definition digits (d : string) : Prop :=
  d ≠ EmptyString ∧ all_chars is_digit d = true.

(** A text of the form digits, dot, digits, dot, digits. *)
Definition triple_text (s : string) : Prop :=
  ∃ d1 d2 d3, digits d1 ∧ digits d2 ∧ digits d3 ∧
    s = d1 +:+ "." +:+ d2 +:+ "." +:+ d3.

(** What [_read_version] guarantees of the version it returns, and with it
    of [self.version]: a stripped text that passed the pattern. *)
Definition valid_version (v : string) : Prop :=
  strip v = v ∧ re_match version_re v = true.

(** Whether [open(p, 'w')] succeeds. *)
Definition writable (fs : gmap path node) (p : path) : bool :=
  match fs !! p with
  | Some (File _ w _) => w
  | Some Directory => false
  | None => match fs !! parent p with Some Directory => true | _ => false end
  end.

(** The file system after a successful write. *)
Definition written (fs : gmap path node) (p : path) (content : string)
  : gmap path node :=
  match fs !! p with
  | Some (File r _ _) => <[p := File r true content]> fs
  | _ => <[p := File true true content]> fs
  end.

(** The effect on the file system of the search and replacement in one
    target file: the file is written when it can be read and written and its
    content has a match. *)
Definition rewrite_file (p : path) (re : regex) (repl : string)
    (fs : gmap path node) : gmap path node :=
  match fs !! p with
  | Some (File true true content) =>
      if re_search re content
      then <[p := File true true (re_sub re repl content)]> fs
      else fs
  | _ => fs
  end.

(** Notions for reasoning on the matcher. *)

(** Some prefix of [s] matches the items. *)
Definition accepts (its : list item) (s : string) : Prop :=
  is_Some (match_here its s).

(** The text does not go on with a character of the class. *)
Definition stops (cls : ascii → bool) (r : string) : Prop :=
  match r with String c _ => cls c = false | EmptyString => True end.

(** Items without [+] and [$]. *)
Definition simple_item (it : item) : Prop :=
  match it with Chr _ | Star _ => True | Plus _ | Dollar => False end.

(** The items that can remain to be matched once a match attempt is past its
    first item: the suffixes of the list. *)
Fixpoint tails (its : list item) : list (list item) :=
  its :: match its with [] => [] | _ :: rest => tails rest end.

(** Two positions at which the anchor of [re] says the same. *)
Definition same_ctx (re : regex) (p q : option ascii) : Prop :=
  anchor_ok (anchored re) p = anchor_ok (anchored re) q.

(** The characters a valid version is made of. *)
Definition version_char (c : ascii) : bool :=
  is_digit c || Ascii.eqb c ".".

(** The two passes of a substitution side by side: the second pass is at a
    position like that of the first ([skip = 0]), or the first pass is inside
    a match, which the replacement text, just put out and ending with
    [rlast], stands for. *)
Definition sub_inv (re : regex) (rlast : ascii) (skip : nat)
    (p p' : option ascii) (s : string) : Prop :=
  match skip with
  | 0 => same_ctx re p p'
  | S k => p' = Some rlast ∧
           ∃ c, String.get k s = Some c ∧ same_ctx re (Some c) (Some rlast)
  end.

(** The state a successful bump to [v] leaves. *)
Definition bumped (st : state) (v : string) : state :=
  log (Success ("Version bumped to " +:+ v))
    (with_version v
       (with_files (written (files st) (version_file st) v) st)).

(** ** Sample environments *)

Definition sample_cargo : string :=
  "[package]
name = " +:+ quoted "backend" +:+ "
version = " +:+ quoted "0.9.0" +:+ "
".

Definition sample_files : gmap path node :=
  list_to_map
    [ ([], Directory);
      (["VERSION"], File true true "1.2.3
");
      (["backend"], Directory);
      (["backend"; "Cargo.toml"], File true true sample_cargo);
      (["frontend"], Directory);
      (["frontend"; "package.json"], File true true "{ }");
      (["frontend"; "src"], Directory) ].

Definition sample_world : world := World sample_files [].
Definition sample_state : state := State [] "1.2.3" sample_files [].

(** ** Further notions *)

(** The bump types [bump_version] accepts. *)
Definition bump_types : list string := ["major"; "minor"; "patch"].

(** The order of versions: by major, then minor, then patch. *)
Definition triple_lt (x y : N * N * N) : Prop :=
  let '(a, b, c) := x in
  let '(a', b', c') := y in
  (a < a')%N ∨ (a = a' ∧ (b < b')%N) ∨ (a = a' ∧ b = b' ∧ (c < c')%N).

(** Whether the search and replacement in a target file takes place: the
    file can be read and written and its content has a match. *)
Definition rewritable (p : path) (re : regex) (fs : gmap path node) : bool :=
  match fs !! p with
  | Some (File true true content) => re_search re content
  | _ => false
  end.

(** The paths of the two TypeScript files. *)
Definition ts_file_1 (st : state) : path :=
  project_root st ++ ["frontend"; "src"; "services"; "AutoUpdater.ts"].
Definition ts_file_2 (st : state) : path :=
  project_root st ++ ["frontend"; "src"; "services"; "BackendService.ts"].

(** The paths [update_all_components] can write. *)
Definition target_files (st : state) : list path :=
  [cargo_file st; package_file st; ts_file_1 st; ts_file_2 st; header_file st].

(** The effect of [create_version_header] on the file system. *)
Definition write_header (p : path) (v : string) (fs : gmap path node)
  : gmap path node :=
  if writable fs p then written fs p (header_content v) else fs.

(** A transformation of the file system that changes no path outside [P]
    and whose result on [P] depends on the paths of [P] alone. *)
Definition acts_on (P : list path)
    (f : gmap path node → gmap path node) : Prop :=
  (∀ fs q, q ∉ P → f fs !! q = fs !! q) ∧
  (∀ fs fs', (∀ q, q ∈ P → fs !! q = fs' !! q) →
             ∀ q, q ∈ P → f fs !! q = f fs' !! q).

(** A project with one TypeScript file that holds the literal. *)
Definition sample_ts_files : gmap path node :=
  list_to_map
    [ ([], Directory);
      (["VERSION"], File true true "1.2.3");
      (["frontend"], Directory);
      (["frontend"; "src"], Directory);
      (["frontend"; "src"; "services"], Directory);
      (["frontend"; "src"; "services"; "AutoUpdater.ts"],
       File true true "getVersion() { return '1.0.0'; }") ].

Definition sample_ts_state : state := State [] "1.2.3" sample_ts_files [].

(** * The build script: a shallow embedding of [build_complete_package.py]

    The script drives external tools. What a tool does is a parameter of the
    model: [exec command cwd fs] is the exit status of the shell that ran the
    command in the directory [cwd], what it wrote to its two streams, and the
    file system it left. The model covers [run_command],
    [check_prerequisites], [build_backend], [build_frontend] and
    [build_electron_package]; the trace records the commands that were run.
    The numbers of megabytes the script prints are floats and are left out of
    the printed lines. *)

Module Build.

(** What [subprocess.run] returns: a [CompletedProcess]. *)
Record completed : Type := Completed {
  returncode : N;
  stdout : string;
  stderr : string
}.

Inductive error : Type :=
| CalledProcessError (cmd : string) (returncode : N) (stdout stderr : string)
| NoSuchDirectory (msg : string)       (* FileNotFoundError for [cwd] *)
| NotADirectory (msg : string).        (* NotADirectoryError for [cwd] *)

Inductive outcome (A : Type) : Type :=
| Done (a : A)
| Raised (e : error).
Arguments Done {A} a.
Arguments Raised {A} e.

Record env : Type := Env {
  files : gmap path node;
  console : list line;
  trace : list (string * option path)
}.

Definition Run (A : Type) : Type := env → outcome A * env.

#[global] Instance Run_ret : MRet Run := λ A a st, (Done a, st).
#[global] Instance Run_bind : MBind Run := λ A B f m st,
  match m st with
  | (Done a, st') => f a st'
  | (Raised e, st') => (Raised e, st')
  end.

Definition print (l : line) : Run unit := λ st,
  (Done tt, Env (files st) (console st ++ [l]) (trace st)).

(** [p.exists()] on the current file system. *)
Definition exists_ (p : path) : Run bool := λ st,
  (Done (path_exists (files st) p), st).

(** The error of starting a process in a directory that is not there. *)
Definition cwd_error (fs : gmap path node) (cwd : option path)
  : option error :=
  match cwd with
  | None => None
  | Some d =>
      match fs !! d with
      | Some Directory => None
      | Some (File _ _ _) => Some (NotADirectory (path_str d))
      | None => Some (NoSuchDirectory (path_str d))
      end
  end.

(** [str(e)] for a [CalledProcessError]. *)
Definition called_process_error_str (cmd : string) (rc : N) : string :=
  "Command '" +:+ cmd +:+ "' returned non-zero exit status " +:+ str rc +:+ ".".

Definition nonempty (s : string) : bool :=
  match s with EmptyString => false | _ => true end.

Section with_exec.

(** The external tools. *)
Variable exec :
  string → option path → gmap path node → completed * gmap path node.

(** [subprocess.run(command, shell=True, check=check, capture_output=True,
    text=True, cwd=cwd)] *)
Definition subprocess_run (command : string) (cwd : option path)
    (check : bool) : Run completed := λ st,
  match cwd_error (files st) cwd with
  | Some e => (Raised e, st)
  | None =>
      let '(result, fs) := exec command cwd (files st) in
      let st' := Env fs (console st) (trace st ++ [(command, cwd)]) in
      if check && negb (returncode result =? 0)%N then
        (Raised (CalledProcessError command (returncode result)
                   (stdout result) (stderr result)), st')
      else (Done result, st')
  end.

(** [try: body except subprocess.CalledProcessError as e: handler e] *)
Definition try_except_called {A} (body : Run A)
    (handler : string → N → string → string → Run A) : Run A := λ st,
  match body st with
  | (Raised (CalledProcessError cmd rc out err), st') => handler cmd rc out err st'
  | r => r
  end.

Definition run_command (command : string) (cwd : option path)
    (check : bool) : Run bool :=
  print (Plain ("Running: " +:+ command));;
  match cwd with
  | Some d => print (Plain ("Working directory: " +:+ path_str d))
  | None => mret tt
  end;;
  try_except_called
    (result ← subprocess_run command cwd check;
     (if nonempty (strip (stdout result)) then
        print (Success "Success:");;
        print (Plain (strip (stdout result)))
      else mret tt);;
     mret true)
    (λ cmd rc out err,
       print (Failure ("Failed: " +:+ called_process_error_str cmd rc));;
       (if nonempty (strip out) then print (Plain ("stdout: " +:+ strip out))
        else mret tt);;
       (if nonempty (strip err) then print (Plain ("stderr: " +:+ strip err))
        else mret tt);;
       mret false).


Definition backend_dir : path := ["backend"].
Definition binary_path : path := backend_dir </> "target" </> "release" </> "backend".
Definition frontend_dir : path := ["frontend"].
Definition build_dir : path := frontend_dir </> "build".



Definition electron_win : string := "npx electron-builder --win --publish=never".
Definition electron_linux : string := "npx electron-builder --linux --publish=never".
Definition electron_mac : string := "npx electron-builder --mac --publish=never".

(** The function returns after the third build; the statements after that
    [return], which look for the packages, are never reached. The line
    announcing the build for macOS stands after a [return] too. *)
Definition build_electron_package : Run bool :=
  print (Plain "Building Electron packages for all platforms...");;
  print (Plain "Building for Windows...");;
  win ← run_command electron_win (Some frontend_dir) true;
  if negb win then
    print (Failure "Windows build failed");;
    mret false
  else
    print (Plain "Building for Linux...");;
    linux ← run_command electron_linux (Some frontend_dir) true;
    if negb linux then
      print (Failure "Linux build failed");;
      mret false
    else
      mac ← run_command electron_mac (Some frontend_dir) true;
      if negb mac then
        print (Failure "macOS build failed");;
        mret false
      else
        print (Success "All platform builds completed successfully");;
        mret true.

End with_exec.


(** A tool set for the samples: a command succeeds when it is in [good];
    [cargo build --release] then leaves the binary and [npm run build] the
    build directory. The packager leaves nothing. *)
Definition sample_exec (good : list string) (command : string)
    (cwd : option path) (fs : gmap path node)
  : completed * gmap path node :=
  if bool_decide (command ∈ good) then
    (Completed 0 "ok" "",
     if String.eqb command "cargo build --release"
     then <[binary_path := File true true "ELF"]> fs
     else if String.eqb command "npm run build"
     then <[build_dir := Directory]> fs
     else fs)
  else (Completed 127 "" "command not found", fs).

Definition all_tools : list string :=
  [ "cargo build --release"; "npm install"; "npm run build";
    electron_win; electron_linux; electron_mac ].


End Build.

(** * Properties *)

#[local] Arguments re_search : simpl never.
#[local] Arguments re_sub : simpl never.
#[local] Arguments re_match : simpl never.
#[local] Arguments path_str : simpl never.
#[local] Arguments header_content : simpl never.
#[local] Arguments backend_line : simpl never.
#[local] Arguments frontend_line : simpl never.
#[local] Arguments typescript_line : simpl never.
#[local] Arguments render : simpl never.
#[local] Arguments cargo_file : simpl never.
#[local] Arguments package_file : simpl never.
#[local] Arguments header_file : simpl never.
#[local] Arguments version_file : simpl never.

(** ** Text *)

Section text_facts.
Local Arguments String.append !_ _ / : simpl nomatch.

Lemma app_nil_r s : s +:+ "" = s.
Proof. induction s; simpl; congruence. Qed.

Lemma app_assoc' s t u : (s +:+ t) +:+ u = s +:+ t +:+ u.
Proof. induction s; simpl; congruence. Qed.

Lemma app_length s t :
  String.length (s +:+ t) = String.length s + String.length t.
Proof. induction s; simpl; congruence. Qed.

Lemma all_chars_cons p c s :
  all_chars p (String c s) = p c && all_chars p s.
Proof. reflexivity. Qed.

Lemma all_chars_app p s t :
  all_chars p (s +:+ t) = all_chars p s && all_chars p t.
Proof.
  induction s as [|c s IH]; [done|].
  simpl. rewrite !all_chars_cons, IH. by rewrite andb_assoc.
Qed.

Lemma all_chars_impl (p q : ascii → bool) s :
  (∀ c, p c = true → q c = true) →
  all_chars p s = true → all_chars q s = true.
Proof.
  intros Hpq. induction s as [|c s IH]; [easy|].
  rewrite !all_chars_cons, !andb_true_iff. intros [? ?]. auto.
Qed.

(** A non-empty text ends with a last character. *)
Lemma string_last s : s ≠ "" → ∃ x c, s = x +:+ String c "".
Proof.
  induction s as [|a s IH]; [done|]. intros _.
  destruct s as [|b s].
  - by exists "", a.
  - destruct IH as (x & c & ->); [done|]. by exists (String a x), c.
Qed.

Lemma rstrip_length s : String.length (rstrip s) ≤ String.length s.
Proof.
  induction s as [|c s IH]; simpl; [lia|].
  destruct (rstrip s); [destruct (is_space c)|]; simpl in *; lia.
Qed.

Lemma rstrip_keeps x c :
  is_space c = false → rstrip (x +:+ String c "") = x +:+ String c "".
Proof.
  intros Hc. induction x as [|a x IH]; simpl.
  - by rewrite Hc.
  - rewrite IH. by destruct x.
Qed.

Lemma rstrip_drops x c :
  is_space c = true → rstrip (x +:+ String c "") = rstrip x.
Proof.
  intros Hc. induction x as [|a x IH]; simpl.
  - by rewrite Hc.
  - by rewrite IH.
Qed.

Lemma rstrip_fixed_last x c :
  rstrip (x +:+ String c "") = x +:+ String c "" → is_space c = false.
Proof.
  intros H. destruct (is_space c) eqn:Hc; [|done].
  rewrite rstrip_drops in H by done.
  pose proof (rstrip_length x) as Hl. rewrite H, app_length in Hl.
  simpl in Hl. lia.
Qed.

Lemma rstrip_idem s : rstrip (rstrip s) = rstrip s.
Proof.
  induction s as [|a s IH]; [done|]. simpl.
  destruct (rstrip s) as [|a' r] eqn:E.
  - destruct (is_space a) eqn:Ha; simpl; by rewrite ?Ha.
  - change (rstrip (String a (String a' r)))
      with (match rstrip (String a' r) with
            | "" => if is_space a then "" else String a ""
            | r' => String a r'
            end).
    by rewrite IH.
Qed.

(** What is left of a head that is not white space starts with it. *)
Lemma rstrip_head c r :
  is_space c = false → ∃ r', rstrip (String c r) = String c r'.
Proof.
  intros Hc. simpl. destruct (rstrip r); rewrite ?Hc; by eexists.
Qed.

Lemma lstrip_head s :
  lstrip s = "" ∨ ∃ c r, lstrip s = String c r ∧ is_space c = false.
Proof.
  induction s as [|a s IH]; [by left|]. simpl.
  destruct (is_space a) eqn:Ha; [done|]. right. by exists a, s.
Qed.

Lemma strip_idem s : strip (strip s) = strip s.
Proof.
  unfold strip. destruct (lstrip_head s) as [->|(c & r & -> & Hc)]; [done|].
  destruct (rstrip_head c r Hc) as [r' E]. rewrite E.
  assert (lstrip (String c r') = String c r') as -> by (simpl; by rewrite Hc).
  rewrite <- E. apply rstrip_idem.
Qed.

Lemma is_digit_not_space c : is_digit c = true → is_space c = false.
Proof. by destruct c as [[] [] [] [] [] [] [] []]. Qed.

Lemma is_digit_not_dot c : is_digit c = true → Ascii.eqb c "." = false.
Proof. by destruct c as [[] [] [] [] [] [] [] []]. Qed.

Lemma split_no_sep sep d :
  all_chars (λ c, negb (Ascii.eqb c sep)) d = true → split sep d = [d].
Proof.
  induction d as [|c d IH]; [done|].
  rewrite all_chars_cons, andb_true_iff, negb_true_iff. intros [Hc Hd].
  simpl. by rewrite Hc, IH.
Qed.

Lemma split_app sep d r :
  all_chars (λ c, negb (Ascii.eqb c sep)) d = true →
  split sep (d +:+ String sep r) = d :: split sep r.
Proof.
  induction d as [|c d IH].
  - intros _. simpl. by rewrite Ascii.eqb_refl.
  - rewrite all_chars_cons, andb_true_iff, negb_true_iff. intros [Hc Hd].
    simpl. by rewrite Hc, IH.
Qed.

Lemma digits_no_dot d :
  all_chars is_digit d = true →
  all_chars (λ c, negb (Ascii.eqb c ".")) d = true.
Proof.
  apply all_chars_impl. intros c Hc. by rewrite is_digit_not_dot.
Qed.

Lemma uint_of_digits d :
  all_chars is_digit d = true → is_Some (NilEmpty.uint_of_string d).
Proof.
  induction d as [|c d IH]; [by eexists|].
  rewrite all_chars_cons, andb_true_iff. intros [Hc [u Hu]%IH].
  simpl. rewrite Hu.
  destruct c as [[] [] [] [] [] [] [] []]; try done; by eexists.
Qed.

Lemma int_of_digits d : digits d → is_Some (int d).
Proof.
  intros [Hne [u Hu]%uint_of_digits].
  destruct d; [done|]. unfold int. rewrite Hu. by eexists.
Qed.

Lemma string_of_uint_digits u :
  all_chars is_digit (NilEmpty.string_of_uint u) = true.
Proof. induction u; simpl; try done. Qed.

Lemma str_digits n : digits (str n).
Proof.
  split; [|apply string_of_uint_digits]. unfold str.
  pose proof (Unsigned.to_of (N.to_uint n)) as H.
  rewrite Unsigned.of_to in H.
  pose proof (unorm_nonnil (N.to_uint n)) as Hn. rewrite <- H in Hn.
  by destruct (N.to_uint n).
Qed.

Lemma int_str n : int (str n) = Some n.
Proof.
  destruct (str_digits n) as [Hne _]. unfold int.
  destruct (str n) eqn:E; [done|]. rewrite <- E. unfold str.
  rewrite NilEmpty.usu. simpl. by rewrite Unsigned.of_to.
Qed.

End text_facts.

(** ** The matcher *)

Section matcher_facts.
Local Arguments String.append !_ _ / : simpl nomatch.

Lemma star_some cls k s : is_Some (k s) → is_Some (star cls k s).
Proof.
  intros Hk. destruct s as [|c s]; simpl; [done|].
  destruct (cls c); [|done]. destruct (star cls k s); [by eexists|done].
Qed.

Lemma star_app_some cls k d r :
  all_chars cls d = true → is_Some (k r) → is_Some (star cls k (d +:+ r)).
Proof.
  intros Hd Hk. induction d as [|c d IH]; simpl.
  - by apply star_some.
  - rewrite all_chars_cons, andb_true_iff in Hd. destruct Hd as [-> Hd].
    destruct (IH Hd) as [n ->]. by eexists.
Qed.

Lemma star_stops cls k r : stops cls r → star cls k r = k r.
Proof. destruct r as [|c r]; simpl; [done|]. by intros ->. Qed.

(** The longest repetition is tried first: when the text after it is
    accepted, that is the match. *)
Lemma star_exact cls k d r m :
  all_chars cls d = true → stops cls r → k r = Some m →
  star cls k (d +:+ r) = Some (String.length d + m).
Proof.
  intros Hd Hr Hk. induction d as [|c d IH]; simpl.
  - by rewrite star_stops.
  - rewrite all_chars_cons, andb_true_iff in Hd. destruct Hd as [-> Hd].
    by rewrite (IH Hd).
Qed.

Lemma star_inv cls k s n :
  star cls k s = Some n →
  ∃ d r m, s = d +:+ r ∧ all_chars cls d = true ∧ k r = Some m ∧
           n = String.length d + m.
Proof.
  revert n. induction s as [|c s IH]; intros n; simpl.
  - intros Hk. by exists "", "", n.
  - destruct (cls c) eqn:Hc.
    + destruct (star cls k s) as [n'|] eqn:Hs.
      * intros [= <-]. destruct (IH n' eq_refl) as (d & r & m & -> & Hd & Hk & ->).
        exists (String c d), r, m. rewrite all_chars_cons, Hc. by simpl.
      * intros Hk. by exists "", (String c s), n.
    + intros Hk. by exists "", (String c s), n.
Qed.

Lemma star_item_inv cls rest s n :
  match_here (Star cls :: rest) s = Some n →
  ∃ d r m, s = d +:+ r ∧ all_chars cls d = true ∧
           match_here rest r = Some m ∧ n = String.length d + m.
Proof. apply star_inv. Qed.

Lemma chr_inv cls rest s n :
  match_here (Chr cls :: rest) s = Some n →
  ∃ c s' m, s = String c s' ∧ cls c = true ∧ match_here rest s' = Some m ∧
            n = S m.
Proof.
  destruct s as [|c s']; simpl; [done|].
  destruct (cls c) eqn:Hc; [|done].
  destruct (match_here rest s') as [m|] eqn:Hm; simpl; [|done].
  intros [= <-]. by exists c, s', m.
Qed.

Lemma plus_inv cls rest s n :
  match_here (Plus cls :: rest) s = Some n →
  ∃ d r m, s = d +:+ r ∧ d ≠ "" ∧ all_chars cls d = true ∧
           match_here rest r = Some m ∧ n = String.length d + m.
Proof.
  destruct s as [|c s']; simpl; [done|].
  destruct (cls c) eqn:Hc; [|done].
  destruct (star cls (match_here rest) s') as [n'|] eqn:Hs; simpl; [|done].
  intros [= <-]. apply star_inv in Hs as (d & r & m & -> & Hd & Hk & ->).
  exists (String c d), r, m. rewrite all_chars_cons, Hc. by simpl.
Qed.

Lemma plus_app_some cls rest d r :
  d ≠ "" → all_chars cls d = true → is_Some (match_here rest r) →
  is_Some (match_here (Plus cls :: rest) (d +:+ r)).
Proof.
  intros Hne Hd Hk. destruct d as [|c d]; [done|]. simpl.
  rewrite all_chars_cons, andb_true_iff in Hd. destruct Hd as [-> Hd].
  destruct (star_app_some cls (match_here rest) d r Hd Hk) as [n ->].
  by eexists.
Qed.

Lemma chr_some c rest r :
  is_Some (match_here rest r) →
  is_Some (match_here (Chr (is_char c) :: rest) (String c r)).
Proof.
  intros [n Hn]. simpl. unfold is_char. rewrite Ascii.eqb_refl, Hn.
  by eexists.
Qed.

Lemma is_char_eq a c : is_char a c = true → c = a.
Proof. unfold is_char. by intros ->%Ascii.eqb_eq. Qed.

Lemma dollar_inv s n :
  match_here [Dollar] s = Some n → s = "" ∨ s = String newline "".
Proof.
  destruct s as [|c [|c' s]]; simpl; [by left|..].
  - destruct c as [[] [] [] [] [] [] [] []]; try done. by right.
  - by destruct c as [[] [] [] [] [] [] [] []].
Qed.

End matcher_facts.

(** ** The version pattern *)

Section version_facts.
Local Arguments String.append !_ _ / : simpl nomatch.

Lemma triple_text_strip s : triple_text s → strip s = s.
Proof.
  intros (d1 & d2 & d3 & [Hn1 H1] & _ & [Hn3 H3] & ->).
  unfold strip.
  assert (lstrip (d1 +:+ "." +:+ d2 +:+ "." +:+ d3)
          = d1 +:+ "." +:+ d2 +:+ "." +:+ d3) as ->.
  { destruct d1 as [|c d1]; [done|]. simpl.
    rewrite all_chars_cons, andb_true_iff in H1. destruct H1 as [Hc _].
    by rewrite (is_digit_not_space c Hc). }
  destruct (string_last d3 Hn3) as (x & c & ->).
  rewrite all_chars_app, andb_true_iff in H3. destruct H3 as [_ Hc].
  rewrite all_chars_cons, andb_true_iff in Hc. destruct Hc as [Hc _].
  rewrite <- !app_assoc'. apply rstrip_keeps. by apply is_digit_not_space.
Qed.

Lemma triple_text_match s : triple_text s → re_match version_re s = true.
Proof.
  intros (d1 & d2 & d3 & [Hn1 H1] & [Hn2 H2] & [Hn3 H3] & ->).
  unfold re_match, match_at. simpl anchor_ok. cbv iota.
  assert (is_Some (match_here (body version_re)
    (d1 +:+ "." +:+ d2 +:+ "." +:+ d3))) as [n ->]; [|done].
  simpl body.
  apply plus_app_some; [done..|]. apply chr_some.
  apply plus_app_some; [done..|]. apply chr_some.
  rewrite <- (app_nil_r d3). apply plus_app_some; [done..|]. by eexists.
Qed.

Lemma match_triple_text s :
  strip s = s → re_match version_re s = true → triple_text s.
Proof.
  intros Hs. unfold re_match, match_at. simpl anchor_ok. cbv iota.
  destruct (match_here (body version_re) s) as [n|] eqn:Hm; [|done].
  intros _. simpl body in Hm.
  apply plus_inv in Hm as (d1 & r1 & m1 & -> & Hn1 & H1 & Hm & _).
  apply chr_inv in Hm as (c1 & r2 & m2 & -> & ->%is_char_eq & Hm & _).
  apply plus_inv in Hm as (d2 & r3 & m3 & -> & Hn2 & H2 & Hm & _).
  apply chr_inv in Hm as (c2 & r4 & m4 & -> & ->%is_char_eq & Hm & _).
  apply plus_inv in Hm as (d3 & r5 & m5 & -> & Hn3 & H3 & Hm & _).
  apply dollar_inv in Hm as [->| ->].
  - rewrite app_nil_r. by exists d1, d2, d3.
  - exfalso. unfold strip in Hs.
    assert (lstrip (d1 +:+ String "." (d2 +:+ String "." (d3 +:+ String newline "")))
            = d1 +:+ String "." (d2 +:+ String "." (d3 +:+ String newline ""))) as Hl.
    { destruct d1 as [|c d1]; [done|]. simpl.
      rewrite all_chars_cons, andb_true_iff in H1. destruct H1 as [Hc _].
      by rewrite (is_digit_not_space c Hc). }
    rewrite Hl in Hs.
    change (String "." (d2 +:+ String "." (d3 +:+ String newline "")))
      with ("." +:+ d2 +:+ "." +:+ d3 +:+ String newline "") in Hs.
    rewrite <- !app_assoc' in Hs. by apply rstrip_fixed_last in Hs.
Qed.

Lemma valid_version_triple_text v : valid_version v ↔ triple_text v.
Proof.
  split.
  - intros [Hs Hm]. by apply match_triple_text.
  - intros Ht. split; [by apply triple_text_strip | by apply triple_text_match].
Qed.

Lemma render_triple_text a b c : triple_text (render a b c).
Proof. exists (str a), (str b), (str c). eauto using str_digits. Qed.

Lemma parse_triple_text d1 d2 d3 :
  digits d1 → digits d2 → digits d3 →
  ∃ a b c, int d1 = Some a ∧ int d2 = Some b ∧ int d3 = Some c ∧
    parse_triple (d1 +:+ "." +:+ d2 +:+ "." +:+ d3) = Ret (a, b, c).
Proof.
  intros D1 D2 D3.
  destruct (int_of_digits d1 D1) as [a Ha], (int_of_digits d2 D2) as [b Hb],
    (int_of_digits d3 D3) as [c Hc].
  exists a, b, c. split_and!; try done.
  destruct D1 as [_ D1], D2 as [_ D2], D3 as [_ D3].
  unfold parse_triple.
  change ("." +:+ d2 +:+ "." +:+ d3) with (String "." (d2 +:+ String "." d3)).
  rewrite !split_app, split_no_sep by by apply digits_no_dot.
  simpl. by rewrite Ha, Hb, Hc.
Qed.

Lemma valid_version_parse v :
  valid_version v → ∃ a b c, parse_triple v = Ret (a, b, c).
Proof.
  intros (d1 & d2 & d3 & D1 & D2 & D3 & ->)%valid_version_triple_text.
  destruct (parse_triple_text d1 d2 d3) as (a & b & c & _ & _ & _ & ?);
    eauto.
Qed.

Lemma parse_triple_render a b c : parse_triple (render a b c) = Ret (a, b, c).
Proof.
  destruct (parse_triple_text (str a) (str b) (str c))
    as (a' & b' & c' & Ha & Hb & Hc & H); auto using str_digits.
  rewrite !int_str in *. unfold render. by simplify_eq.
Qed.

End version_facts.

(** ** Files *)

Section file_facts.

Lemma write_file_writable fs p content :
  writable fs p = true → write_file fs p content = Ret (written fs p content).
Proof.
  unfold writable, write_file, written.
  destruct (fs !! p) as [[r [] c|]|]; try done.
  by destruct (fs !! parent p) as [[|]|].
Qed.

Lemma write_file_ret fs p content fs' :
  write_file fs p content = Ret fs' →
  writable fs p = true ∧ fs' = written fs p content.
Proof.
  unfold writable, write_file, written.
  destruct (fs !! p) as [[r [] c|]|]; try done.
  - by intros [= <-].
  - destruct (fs !! parent p) as [[|]|]; try done. by intros [= <-].
Qed.

Lemma written_lookup fs p content :
  ∃ r, written fs p content !! p = Some (File r true content).
Proof.
  unfold written. destruct (fs !! p) as [[r w c|]|];
    eexists; apply lookup_insert_eq.
Qed.

Lemma written_twice fs p c1 c2 :
  written (written fs p c1) p c2 = written fs p c2.
Proof.
  unfold written at 1. destruct (written_lookup fs p c1) as [r Hr].
  rewrite Hr. unfold written in *.
  destruct (fs !! p) as [[r' w c|]|]; rewrite lookup_insert_eq in Hr;
    simplify_eq; apply insert_insert_eq.
Qed.

Lemma written_writable fs p content :
  writable (written fs p content) p = true.
Proof.
  unfold writable. by destruct (written_lookup fs p content) as [r ->].
Qed.

Lemma path_exists_lookup fs p : path_exists fs p = false ↔ fs !! p = None.
Proof. unfold path_exists. by destruct (fs !! p). Qed.

End file_facts.

Ltac not_in_list :=
  rewrite ?not_elem_of_cons; split_and?; (done || apply not_elem_of_nil).

Ltac run :=
  unfold mbind, M_bind, mret, M_ret, get, print, raise, try_except,
    read_text, write_text, set_version; simpl.

(** ** The methods return *)

Section returns.

Lemma update_backend_version_returns st :
  ∃ b st', update_backend_version st = (Ret b, st').
Proof.
  unfold update_backend_version. run.
  destruct (path_exists _ _); simpl; [|by eauto].
  destruct (read_file _ _); simpl; [|by eauto].
  destruct (re_search _ _); simpl; [|by eauto].
  destruct (write_file _ _ _); simpl; by eauto.
Qed.

Lemma update_frontend_version_returns st :
  ∃ b st', update_frontend_version st = (Ret b, st').
Proof.
  unfold update_frontend_version. run.
  destruct (path_exists _ _); simpl; [|by eauto].
  destruct (read_file _ _); simpl; [|by eauto].
  destruct (re_search _ _); simpl; [|by eauto].
  destruct (write_file _ _ _); simpl; by eauto.
Qed.

Lemma update_typescript_file_returns ts_file updated st :
  ∃ b st', update_typescript_file ts_file updated st = (Ret b, st').
Proof.
  unfold update_typescript_file. run.
  destruct (path_exists _ _); simpl; [|by eauto].
  destruct (read_file _ _); simpl; [|by eauto].
  destruct (re_search _ _); simpl; [|by eauto].
  destruct (write_file _ _ _); simpl; by eauto.
Qed.

Lemma for_ts_files_returns l updated st :
  ∃ b st', for_ts_files l updated st = (Ret b, st').
Proof.
  revert updated st. induction l as [|ts_file l IH]; intros updated st.
  - by eexists _, _.
  - simpl. unfold mbind, M_bind.
    destruct (update_typescript_file_returns ts_file updated st)
      as (b & st' & ->). apply IH.
Qed.

Lemma update_typescript_version_returns st :
  ∃ b st', update_typescript_version st = (Ret b, st').
Proof. apply for_ts_files_returns. Qed.

Lemma create_version_header_returns st :
  ∃ b st', create_version_header st = (Ret b, st').
Proof.
  unfold create_version_header. run.
  destruct (write_file _ _ _); simpl; by eauto.
Qed.

End returns.

(** ** Bumping *)

Section bump.


Lemma parse_triple_raises v e : parse_triple v = Raise e → ∃ msg, e = ValueError msg.
Proof.
  unfold parse_triple. destruct (mapM int (split "." v)) as [l|];
    [|intros [= <-]; by eexists].
  destruct l as [|? [|? [|? [|? ?]]]]; intros [= <-]; by eexists.
Qed.

End bump.



(** The examples of the specification. *)
Example bump_examples :
  fst (bump_version "patch" sample_state) = Ret "1.2.4" ∧
  fst (bump_version "minor" sample_state) = Ret "1.3.0" ∧
  fst (bump_version "major" sample_state) = Ret "2.0.0".
Proof. by vm_compute. Qed.



Lemma bumped_valid st a b c : valid_version (version (bumped st (render a b c))).
Proof. apply valid_version_triple_text, render_triple_text. Qed.

(** C3. A bump type other than major, minor and patch makes [bump_version]
    raise [ValueError] and leaves the whole state as it was: the canonical
    file, the version in memory and the console. *)
Theorem bump_version_invalid st bump_type :
  bump_type ∉ ["major"; "minor"; "patch"] →
  (∃ msg, bump_version bump_type st = (Raise (ValueError msg), st)) ∧
  (valid_version (version st) →
   bump_version bump_type st
   = (Raise (ValueError ("Invalid bump type: " +:+ bump_type)), st)).
Proof.
  intros Hk.
  assert (String.eqb bump_type "major" = false ∧
          String.eqb bump_type "minor" = false ∧
          String.eqb bump_type "patch" = false) as (E1 & E2 & E3).
  { rewrite !not_elem_of_cons in Hk. destruct Hk as (? & ? & ? & _).
    by rewrite !String.eqb_neq. }
  assert (∀ a b c, parse_triple (version st) = Ret (a, b, c) →
    bump_version bump_type st
    = (Raise (ValueError ("Invalid bump type: " +:+ bump_type)), st)) as Hgood.
  { intros a b c Hp. unfold bump_version. run. rewrite Hp. simpl.
    by rewrite E1, E2, E3. }
  split.
  - destruct (parse_triple (version st)) as [[[a b] c]|e] eqn:Hp.
    + eexists. by eapply Hgood.
    + destruct (parse_triple_raises _ _ Hp) as [msg ->]. exists msg.
      unfold bump_version. run. by rewrite Hp.
  - intros (a & b & c & Hp)%valid_version_parse. by eapply Hgood.
Qed.

Lemma bump_version_invalid_witness :
  (∃ msg, bump_version "bogus" sample_state = (Raise (ValueError msg), sample_state)) ∧
  (valid_version (version sample_state) →
   bump_version "bogus" sample_state
   = (Raise (ValueError ("Invalid bump type: " +:+ "bogus")), sample_state)).
Proof. apply (bump_version_invalid sample_state "bogus"). not_in_list. Defined.

(** ** Reading the canonical version *)

(** C2. [_read_version] raises [FileNotFoundError] when the canonical file is
    absent; it raises [ValueError] when the stripped content of the file is
    not digits, dot, digits, dot, digits, as for the contents 1.0, v1.0.0 and
    1.0.0-beta; on a file that holds the text of a triple it returns that
    text, which reads back as the triple; and [main] constructs the manager,
    and with it validates the version, before it runs a command: when the
    read fails the process ends with status 1 and nothing is changed. *)
Theorem read_version_spec vf fs :
  (fs !! vf = None →
   _read_version vf fs
   = Raise (FileNotFoundError ("VERSION file not found at " +:+ path_str vf))) ∧
  (∀ w content, fs !! vf = Some (File true w content) →
     ¬ triple_text (strip content) →
     _read_version vf fs
     = Raise (ValueError ("Invalid version format: " +:+ strip content))) ∧
  (∀ w content, fs !! vf = Some (File true w content) →
     content ∈ ["1.0"; "v1.0.0"; "1.0.0-beta"] →
     _read_version vf fs
     = Raise (ValueError ("Invalid version format: " +:+ content))) ∧
  (∀ w a b c, fs !! vf = Some (File true w (render a b c)) →
     _read_version vf fs = Ret (render a b c) ∧
     parse_triple (render a b c) = Ret (a, b, c)) ∧
  (∀ e w prog command args,
     w_files w = fs → vf = ["VERSION"] → _read_version vf fs = Raise e →
     VersionManager [] w = Raise e ∧
     main (prog :: command :: args) w = (1, w)).
Proof.
  split_and!.
  - intros H. unfold _read_version, path_exists. by rewrite H.
  - intros w content H Hn. unfold _read_version, path_exists, read_file.
    rewrite H. simpl.
    destruct (re_match version_re (strip content)) eqn:Hm; [|done].
    destruct Hn. apply match_triple_text; [apply strip_idem | done].
  - intros w content H Hin. unfold _read_version, path_exists, read_file.
    rewrite H. simpl.
    rewrite !elem_of_cons, elem_of_nil in Hin.
    by destruct Hin as [->|[->|[->|[]]]].
  - intros w a b c H. split; [|apply parse_triple_render].
    unfold _read_version, path_exists, read_file. rewrite H. simpl.
    pose proof (render_triple_text a b c) as Ht.
    rewrite (triple_text_strip _ Ht). by rewrite (triple_text_match _ Ht).
  - intros e w prog command args <- -> He.
    unfold main, VersionManager, pjoin. simpl. by rewrite He.
Qed.

Lemma read_version_spec_witness :
  _read_version ["VERSION"] (delete ["VERSION"] sample_files)
  = Raise (FileNotFoundError "VERSION file not found at VERSION") ∧
  _read_version ["VERSION"] (<[ ["VERSION"] := File true true "1.0.0-beta" ]> sample_files)
  = Raise (ValueError "Invalid version format: 1.0.0-beta") ∧
  _read_version ["VERSION"] (<[ ["VERSION"] := File true true (render 2 1 0) ]> sample_files)
  = Ret (render 2 1 0) ∧
  main ["version_manager.py"; "update-all"]
    (World (delete ["VERSION"] sample_files) [])
  = (1, World (delete ["VERSION"] sample_files) []).
Proof.
  split_and!.
  - by apply (read_version_spec ["VERSION"] (delete ["VERSION"] sample_files)).
  - apply (proj1 (proj2 (proj2 (read_version_spec ["VERSION"]
      (<[ ["VERSION"] := File true true "1.0.0-beta" ]> sample_files))))
      true "1.0.0-beta"); [reflexivity|].
    rewrite !elem_of_cons. auto.
  - by apply (proj1 (proj2 (proj2 (proj2 (read_version_spec ["VERSION"]
      (<[ ["VERSION"] := File true true (render 2 1 0) ]> sample_files)))))
      true 2%N 1%N 0%N).
  - by apply (proj2 (proj2 (proj2 (proj2 (read_version_spec ["VERSION"]
      (delete ["VERSION"] sample_files)))))
      (FileNotFoundError "VERSION file not found at VERSION")
      (World (delete ["VERSION"] sample_files) [])).
Defined.

(** ** Updating the components *)








(** C10. The text [create_version_header] writes is a function of the
    version alone: two runs with the same version that succeed leave the
    same content in the header file, whatever else differs between their
    states; the text is [header_content], fixed text around the version, in
    which the build date is the expression [new Date().toISOString()] and no
    value of the time of the run. A second run changes no file. *)
Theorem create_version_header_deterministic st1 st2 st1' st2' :
  version st1 = version st2 →
  create_version_header st1 = (Ret true, st1') →
  create_version_header st2 = (Ret true, st2') →
  (∃ r1 r2,
     files st1' !! header_file st1
     = Some (File r1 true (header_content (version st1))) ∧
     files st2' !! header_file st2
     = Some (File r2 true (header_content (version st1)))) ∧
  (∃ st1'', create_version_header st1' = (Ret true, st1'') ∧
            files st1'' = files st1') ∧
  header_content (version st1)
  = "// Auto-generated version file - DO NOT EDIT MANUALLY
// This file is updated automatically by the version manager

export const APP_VERSION = '" +:+ version st1 +:+ "';
export const APP_NAME = 'Unified Data Studio v2';

// Version information for components
export const VERSION_INFO = {
  version: '" +:+ version st1 +:+ "',
  name: 'Unified Data Studio v2',
  buildDate: new Date().toISOString(),
  environment: process.env.NODE_ENV || 'development'
};

export default APP_VERSION;
".
Proof.
  intros Hv H1 H2.
  assert (∀ st st', create_version_header st = (Ret true, st') →
    files st' = written (files st) (header_file st) (header_content (version st)) ∧
    project_root st' = project_root st ∧ version st' = version st) as Hrun.
  { intros st st'. unfold create_version_header. run.
    destruct (write_file _ _ _) as [fs|e] eqn:Hw; simpl; [|done].
    apply write_file_ret in Hw as [_ ->]. by intros [= <-]. }
  destruct (Hrun _ _ H1) as (F1 & R1 & V1), (Hrun _ _ H2) as (F2 & R2 & V2).
  split_and!; [|  |done].
  - rewrite F1, F2, Hv.
    destruct (written_lookup (files st1) (header_file st1)
                (header_content (version st2))) as [r1 ->].
    destruct (written_lookup (files st2) (header_file st2)
                (header_content (version st2))) as [r2 ->].
    by exists r1, r2.
  - unfold create_version_header. run.
    assert (header_file st1' = header_file st1) as ->
      by (unfold header_file; by rewrite R1).
    rewrite V1, F1. rewrite write_file_writable by apply written_writable.
    simpl. eexists. split; [done|]. simpl. apply written_twice.
Qed.

Lemma create_version_header_deterministic_witness :
  ∃ r1 r2,
    files (snd (create_version_header sample_state)) !! header_file sample_state
    = Some (File r1 true (header_content "1.2.3")) ∧
    files (snd (create_version_header (State ["elsewhere"] "1.2.3"
             (<[ ["elsewhere"; "frontend"; "src"] := Directory ]> ∅) [])))
      !! ["elsewhere"; "frontend"; "src"; "version.ts"]
    = Some (File r2 true (header_content "1.2.3")).
Proof.
  apply (create_version_header_deterministic sample_state
           (State ["elsewhere"] "1.2.3"
              (<[ ["elsewhere"; "frontend"; "src"] := Directory ]> ∅) []));
    reflexivity.
Defined.

(** ** The command line *)

(** C9, as stated, fails: with a valid canonical version, [bump] without a
    bump type, [bump] with an unsupported one and an unknown command all end
    with exit status 0. *)
Lemma bad_arguments_exit_zero :
  fst (main ["version_manager.py"; "bump"] sample_world) = 0 ∧
  fst (main ["version_manager.py"; "bump"; "bogus"] sample_world) = 0 ∧
  fst (main ["version_manager.py"; "deploy"] sample_world) = 0.
Proof. by vm_compute. Qed.

(** C9, amended. When the canonical version can be read and is valid,
    [bump] without a bump type, [bump] with a bump type other than major,
    minor and patch, and a command that is not one of the four all print
    their failure line and return: the exit status is 0, and no file is
    changed. (When the manager cannot be built the status is 1 and nothing
    is printed or changed.) *)
Theorem main_bad_arguments w prog :
  (∀ manager, VersionManager [] w = Ret manager →
     main [prog; "bump"] w
     = (0, World (w_files w)
             (w_console w ++
              [Failure "Please specify bump type: major, minor, or patch"])) ∧
     (∀ bump_type rest, bump_type ∉ ["major"; "minor"; "patch"] →
        main (prog :: "bump" :: bump_type :: rest) w
        = (0, World (w_files w)
                (w_console w ++
                 [Failure "Invalid bump type. Use: major, minor, or patch"]))) ∧
     (∀ command args,
        command ∉ ["update-all"; "bump"; "info"; "create-header"] →
        main (prog :: command :: args) w
        = (0, World (w_files w)
                (w_console w ++
                 [Failure ("Unknown command: " +:+ command);
                  Plain "Use: update-all, bump, info, or create-header"])))) ∧
  (∀ e command args, VersionManager [] w = Raise e →
     main (prog :: command :: args) w = (1, w)).
Proof.
  split.
  - intros manager Hm.
    assert (files manager = w_files w ∧ console manager = w_console w)
      as [Hf Hc].
    { unfold VersionManager in Hm.
      destruct (_read_version _ _); by simplify_eq. }
    split_and!.
    + unfold main. rewrite Hm. unfold run_command. simpl.
      unfold print, world_of, log. simpl. by rewrite Hf, Hc.
    + intros bump_type rest Hk. unfold main. rewrite Hm.
      unfold run_command. simpl. rewrite bool_decide_eq_false_2 by done.
      simpl. unfold print, world_of, log. simpl. by rewrite Hf, Hc.
    + intros command args Hk. unfold main. rewrite Hm.
      rewrite !not_elem_of_cons in Hk. destruct Hk as (H1 & H2 & H3 & H4 & _).
      unfold run_command.
      rewrite (proj2 (String.eqb_neq _ _) H1), (proj2 (String.eqb_neq _ _) H2),
        (proj2 (String.eqb_neq _ _) H3), (proj2 (String.eqb_neq _ _) H4).
      run. unfold world_of, log. simpl. rewrite Hf, Hc.
      by rewrite <- app_assoc.
  - intros e command args He. unfold main. by rewrite He.
Qed.

Lemma main_bad_arguments_witness :
  main ["version_manager.py"; "bump"; "bogus"] sample_world
  = (0, World sample_files
          [Failure "Invalid bump type. Use: major, minor, or patch"]).
Proof.
  apply (proj1 (proj2 (proj1 (main_bad_arguments sample_world "version_manager.py")
           (State [] "1.2.3" sample_files []) eq_refl)) "bogus" []).
  not_in_list.
Defined.

(** ** Substitution is stable under a second pass *)

Section accepts_facts.
Local Arguments String.append !_ _ / : simpl nomatch.

Lemma accepts_nil s : accepts [] s.
Proof. by eexists. Qed.

Lemma accepts_chr cls rest s :
  accepts (Chr cls :: rest) s ↔
  ∃ c X, s = String c X ∧ cls c = true ∧ accepts rest X.
Proof.
  unfold accepts. split.
  - intros [n (c & X & m & -> & Hc & Hm & _)%chr_inv]. exists c, X. eauto.
  - intros (c & X & -> & Hc & [m Hm]). simpl. rewrite Hc, Hm. by eexists.
Qed.

Lemma accepts_star cls rest s :
  accepts (Star cls :: rest) s ↔
  accepts rest s ∨
  ∃ c X, s = String c X ∧ cls c = true ∧ accepts (Star cls :: rest) X.
Proof.
  unfold accepts. simpl. split.
  - destruct s as [|c X]; simpl; [by left|].
    destruct (cls c) eqn:Hc; [|by left].
    destruct (star cls (match_here rest) X) eqn:HX; [|by left].
    intros _. right. exists c, X. eauto.
  - intros [H|(c & X & -> & Hc & [n Hn])]; [by apply star_some|].
    simpl. rewrite Hc, Hn. by eexists.
Qed.

Lemma tails_self its : its ∈ tails its.
Proof. destruct its; simpl; by left. Qed.

Lemma tails_closed it rest its : it :: rest ∈ tails its → rest ∈ tails its.
Proof.
  induction its as [|it' its IH]; simpl.
  - rewrite elem_of_cons, elem_of_nil. by intros [|[]].
  - rewrite !elem_of_cons. intros [[= -> ->]|H].
    + right. apply tails_self.
    + right. by apply IH.
Qed.

Lemma tails_Forall (P : item → Prop) u its :
  u ∈ tails its → Forall P its → Forall P u.
Proof.
  induction its as [|it its IH]; simpl.
  - rewrite elem_of_cons, elem_of_nil. by intros [->|[]].
  - rewrite elem_of_cons. intros [->|H] HP; [done|].
    apply IH; [done|]. by apply Forall_cons in HP as [_ ?].
Qed.

Lemma get_app d r m :
  String.get (String.length d + m) (d +:+ r) = String.get m r.
Proof. induction d as [|c d IH]; simpl; done. Qed.

(** A pattern whose last item is a single character: a match is not empty
    and ends with a character of that class. *)
Lemma match_here_last its cls s n :
  Forall simple_item its →
  match_here (its ++ [Chr cls]) s = Some n →
  ∃ n' c, n = S n' ∧ String.get n' s = Some c ∧ cls c = true.
Proof.
  intros Hs. revert s n. induction Hs as [|it its Hit _ IH]; intros s n.
  - intros (c & s' & m & -> & Hc & [= <-] & ->)%chr_inv. by exists 0, c.
  - destruct it as [cls'|cls'| |]; try done; simpl app.
    + intros (c' & s' & m & -> & _ & Hm & ->)%chr_inv.
      apply IH in Hm as (n' & c & -> & Hg & Hc). by exists (S n'), c.
    + intros (d & r & m & -> & _ & Hm & ->)%star_item_inv.
      apply IH in Hm as (n' & c & -> & Hg & Hc).
      exists (String.length d + n'), c. rewrite get_app.
      split_and!; [lia|done..].
Qed.

End accepts_facts.

Section substitution.
Local Arguments String.append !_ _ / : simpl nomatch.

Variables (re : regex) (R : string) (rlast : ascii).

Lemma match_at_ctx p q s :
  same_ctx re p q → match_at re p s = match_at re q s.
Proof. unfold same_ctx, match_at. by intros ->. Qed.

Lemma match_at_anchor p s n :
  match_at re p s = Some n →
  anchor_ok (anchored re) p = true ∧ match_here (body re) s = Some n.
Proof. unfold match_at. by destruct (anchor_ok _ _). Qed.

(** Dropping the rest of a match. *)
Lemma sub_from_skip X c T p :
  sub_from re R (S (String.length X)) p (X +:+ String c T)
  = sub_from re R 0 (Some c) T.
Proof.
  revert p. induction X as [|a X IH]; intros p; simpl; [done|].
  apply IH.
Qed.

Lemma sub_from_match p c s' n :
  match_at re p (String c s') = Some (S n) →
  sub_from re R 0 p (String c s') = R +:+ sub_from re R n (Some c) s'.
Proof. simpl. by intros ->. Qed.

Lemma sub_from_no_match p c s' :
  match_at re p (String c s') = None →
  sub_from re R 0 p (String c s') = String c (sub_from re R 0 (Some c) s').
Proof. simpl. by intros ->. Qed.

(** *** What the pattern and the replacement have to satisfy *)

(** A match is not empty, and the position after it is, for the anchor,
    like the position after the replacement. *)
Hypothesis Hlast : ∀ p s n, match_at re p s = Some n →
  ∃ n' c, n = S n' ∧ String.get n' s = Some c ∧
          same_ctx re (Some c) (Some rlast).

(** A pass over the replacement text puts it out again. *)
Hypothesis Hrepl : ∀ p T, anchor_ok (anchored re) p = true →
  sub_from re R 0 p (R +:+ T) = R +:+ sub_from re R 0 (Some rlast) T.

(** Where there is no match, a pass over the text that follows makes none. *)
Hypothesis Hnone : ∀ p c s',
  match_at re p (String c s') = None →
  match_at re p (String c (sub_from re R 0 (Some c) s')) = None.

Lemma sub_from_stable s : ∀ skip p p',
  sub_inv re rlast skip p p' s →
  sub_from re R 0 p' (sub_from re R skip p s) = sub_from re R skip p s.
Proof.
  induction s as [|c s' IH]; intros skip p p' Hinv.
  - unfold sub_inv in Hinv.
    destruct skip as [|k]; [|by destruct Hinv as (_ & ? & ? & _)].
    simpl in *. destruct (match_at re p "") as [n|] eqn:E.
    { by apply Hlast in E as (? & ? & _ & ? & _). }
    simpl. by rewrite <- (match_at_ctx _ _ _ Hinv), E.
  - unfold sub_inv in Hinv. destruct skip as [|k]; simpl in Hinv.
    + simpl. destruct (match_at re p (String c s')) as [[|n]|] eqn:E.
      * by apply Hlast in E as (? & ? & ? & _).
      * rewrite Hrepl.
        2:{ rewrite <- Hinv. by apply match_at_anchor in E as [? _]. }
        f_equal. apply IH.
        apply Hlast in E as (n' & c0 & [= <-] & Hg & Hc).
        destruct n as [|n]; simpl in *; [by simplify_eq|eauto].
      * change (sub_from re R 0 p'
                  (String c (sub_from re R 0 (Some c) s')))
          with (match match_at re p' (String c (sub_from re R 0 (Some c) s')) with
                | Some (S n) => R +:+ sub_from re R n (Some c) (sub_from re R 0 (Some c) s')
                | Some 0 => R +:+ String c (sub_from re R 0 (Some c) (sub_from re R 0 (Some c) s'))
                | None => String c (sub_from re R 0 (Some c) (sub_from re R 0 (Some c) s'))
                end).
        rewrite <- (match_at_ctx _ _ _ Hinv), (Hnone _ _ _ E).
        f_equal. by apply IH.
    + simpl. apply IH. destruct Hinv as (-> & c0 & Hg & Hc).
      destruct k as [|k]; simpl in *; [by simplify_eq|eauto].
Qed.

Lemma re_sub_stable s : re_sub re R (re_sub re R s) = re_sub re R s.
Proof. by apply sub_from_stable. Qed.

End substitution.

Section crossing.
Local Arguments String.append !_ _ / : simpl nomatch.

Variables (re : regex) (R : string) (cls0 : ascii → bool) (its1 : list item).

Hypothesis Hbody : body re = Chr cls0 :: its1.
Hypothesis Hsimple : Forall simple_item its1.

(** A match attempt that is past its first character and runs into the
    replacement text goes on as it does on a text with a match there. *)
Hypothesis Hcross : ∀ u T s,
  u ∈ tails its1 → is_Some (match_here (body re) s) →
  accepts u (R +:+ T) → accepts u s.

Lemma accepts_after_sub s : ∀ u p,
  u ∈ tails its1 → accepts u (sub_from re R 0 p s) → accepts u s.
Proof.
  induction s as [|c s' IH]; intros u p Hu.
  - simpl. destruct (match_at re p "") as [n|] eqn:E; [|done].
    apply match_at_anchor in E as [_ E]. intros H.
    apply (Hcross u ""); [done|by eexists|by rewrite app_nil_r].
  - simpl. destruct (match_at re p (String c s')) as [[|n]|] eqn:E.
    + apply match_at_anchor in E as [_ E]. apply Hcross; [done|by eexists].
    + apply match_at_anchor in E as [_ E]. apply Hcross; [done|by eexists].
    + clear E. revert Hu. induction u as [|it rest IHu]; intros Hu.
      { intros _. apply accepts_nil. }
      pose proof (tails_Forall _ _ _ Hu Hsimple) as [Hit _]%Forall_cons.
      pose proof (tails_closed _ _ _ Hu) as Hrest.
      destruct it as [cls|cls| |]; try done.
      * rewrite !accepts_chr. intros (c0 & X & [= <- <-] & Hc & HX).
        exists c, s'. split_and!; [done..|]. by eapply IH.
      * rewrite (accepts_star cls rest (String c s')), accepts_star.
        intros [H|(c0 & X & [= <- <-] & Hc & HX)].
        -- left. by apply IHu.
        -- right. exists c, s'. split_and!; [done..|]. by eapply IH.
Qed.

Lemma no_match_after_sub p c s' :
  match_at re p (String c s') = None →
  match_at re p (String c (sub_from re R 0 (Some c) s')) = None.
Proof.
  unfold match_at. destruct (anchor_ok _ _); [|done].
  rewrite Hbody. simpl. destruct (cls0 c); [|done].
  destruct (match_here its1 (sub_from re R 0 (Some c) s')) as [n|] eqn:E;
    [|done].
  destruct (accepts_after_sub s' its1 (Some c)) as [m ->];
    [apply tails_self|by eexists|done].
Qed.

End crossing.

(** ** The three targets *)

Section version_chars.
Local Arguments String.append !_ _ / : simpl nomatch.

Lemma valid_version_chars v : valid_version v → all_chars version_char v = true.
Proof.
  intros (d1 & d2 & d3 & [_ H1] & [_ H2] & [_ H3] & ->)%valid_version_triple_text.
  assert (∀ d, all_chars is_digit d = true → all_chars version_char d = true)
    as Hd.
  { intros d. apply all_chars_impl. intros c Hc. unfold version_char.
    by rewrite Hc. }
  rewrite !all_chars_app, !andb_true_iff. split_and!; auto.
Qed.

Lemma version_char_not_quote c : version_char c = true → not_quote c = true.
Proof. by destruct c as [[] [] [] [] [] [] [] []]. Qed.

Lemma is_space_not_quote c : is_space c = true → not_quote c = true.
Proof. by destruct c as [[] [] [] [] [] [] [] []]. Qed.

Lemma valid_version_not_quote v :
  valid_version v → all_chars not_quote v = true.
Proof.
  intros Hv%valid_version_chars. revert Hv. apply all_chars_impl.
  apply version_char_not_quote.
Qed.

Lemma quoted_app v T : quoted v +:+ T = String dq (v +:+ String dq T).
Proof. unfold quoted. simpl. by rewrite app_assoc'. Qed.

End version_chars.

Section backend.
Local Arguments String.append !_ _ / : simpl nomatch.

Variable v : string.
Hypothesis Hv : valid_version v.

Lemma backend_line_app T :
  backend_line v +:+ T = "version = " +:+ String dq (v +:+ String dq T).
Proof. unfold backend_line. by rewrite app_assoc', quoted_app. Qed.

Lemma backend_self_match T :
  match_here (body backend_re) (backend_line v +:+ T)
  = Some (12 + String.length v).
Proof.
  rewrite backend_line_app. simpl.
  rewrite (star_exact not_quote _ v (String dq T) 1).
  - simpl. do 11 f_equal. lia.
  - by apply valid_version_not_quote.
  - done.
  - done.
Qed.

Lemma backend_last p s n :
  match_at backend_re p s = Some n →
  ∃ n' c, n = S n' ∧ String.get n' s = Some c ∧
          same_ctx backend_re (Some c) (Some dq).
Proof.
  intros [_ Hm]%match_at_anchor.
  apply (match_here_last
           (lit "version" ++
            [Star is_space; Chr (is_char "="%char); Star is_space;
             Chr (is_char dq); Star not_quote]) (is_char dq)) in Hm
    as (n' & c & -> & Hg & ->%is_char_eq).
  - by exists n', dq.
  - simpl. repeat constructor.
Qed.

Lemma backend_repl p T :
  anchor_ok (anchored backend_re) p = true →
  sub_from backend_re (backend_line v) 0 p (backend_line v +:+ T)
  = backend_line v +:+ sub_from backend_re (backend_line v) 0 (Some dq) T.
Proof.
  intros Hp.
  assert (match_at backend_re p (backend_line v +:+ T)
          = Some (12 + String.length v)) as Hm.
  { unfold match_at. rewrite Hp. apply backend_self_match. }
  rewrite backend_line_app in Hm |- * at 1.
  change ("version = " +:+ String dq (v +:+ String dq T))
    with (String "v" (("ersion = " +:+ String dq v) +:+ String dq T))
    in Hm |- *.
  rewrite (sub_from_match _ _ _ _ _ _ Hm). f_equal.
  change (11 + String.length v)
    with (S (String.length ("ersion = " +:+ String dq v))).
  apply sub_from_skip.
Qed.

Lemma backend_has_quote s :
  is_Some (match_here (body backend_re) s) →
  accepts [Star not_quote; Chr (is_char dq)] s.
Proof.
  intros [n Hm]. unfold backend_re in Hm. cbn [body lit app] in Hm.
  do 7 (apply chr_inv in Hm as (? & ? & ? & -> & ->%is_char_eq & Hm & _)).
  apply star_item_inv in Hm as (d1 & ? & ? & -> & Hd1 & Hm & _).
  apply chr_inv in Hm as (? & ? & ? & -> & ->%is_char_eq & Hm & _).
  apply star_item_inv in Hm as (d2 & ? & ? & -> & Hd2 & Hm & _).
  apply chr_inv in Hm as (? & r & ? & -> & ->%is_char_eq & Hm & _).
  change (accepts [Star not_quote; Chr (is_char dq)]
            ("version" +:+ d1 +:+ "=" +:+ d2 +:+ String dq r)).
  rewrite <- !app_assoc'. apply star_app_some.
  - rewrite !all_chars_app, !andb_true_iff. split_and!; try done;
      by eapply all_chars_impl; [apply is_space_not_quote|].
  - simpl. unfold is_char. simpl. by eexists.
Qed.

Lemma backend_cross u T s :
  u ∈ tails (lit "ersion" ++
             [Star is_space; Chr (is_char "="%char); Star is_space;
              Chr (is_char dq); Star not_quote; Chr (is_char dq)]) →
  is_Some (match_here (body backend_re) s) →
  accepts u (backend_line v +:+ T) → accepts u s.
Proof.
  intros Hu Hs. rewrite backend_line_app. simpl in Hu.
  rewrite !elem_of_cons, elem_of_nil in Hu.
  repeat (destruct Hu as [->|Hu]); try done;
    try (by intros [? [=]]).
  intros _. by apply backend_has_quote.
Qed.

Lemma backend_sub_stable content :
  re_sub backend_re (backend_line v)
    (re_sub backend_re (backend_line v) content)
  = re_sub backend_re (backend_line v) content.
Proof.
  apply (re_sub_stable backend_re (backend_line v) dq).
  - apply backend_last.
  - apply backend_repl.
  - apply (no_match_after_sub backend_re (backend_line v)
             (is_char "v"%char)
             (lit "ersion" ++
              [Star is_space; Chr (is_char "="%char); Star is_space;
               Chr (is_char dq); Star not_quote; Chr (is_char dq)])).
    + done.
    + simpl. repeat constructor.
    + apply backend_cross.
Qed.

End backend.

Section frontend.
Local Arguments String.append !_ _ / : simpl nomatch.

Variable v : string.
Hypothesis Hv : valid_version v.

Lemma frontend_line_app T :
  frontend_line v +:+ T
  = String dq ("version" +:+ String dq (": " +:+ String dq (v +:+ String dq T))).
Proof.
  unfold frontend_line. rewrite !app_assoc', quoted_app.
  unfold quoted. simpl. by rewrite app_assoc'.
Qed.

Lemma frontend_self_match T :
  match_here (body frontend_re) (frontend_line v +:+ T)
  = Some (13 + String.length v).
Proof.
  rewrite frontend_line_app. simpl.
  rewrite (star_exact not_quote _ v (String dq T) 1).
  - simpl. do 12 f_equal. lia.
  - by apply valid_version_not_quote.
  - done.
  - done.
Qed.

Lemma frontend_last p s n :
  match_at frontend_re p s = Some n →
  ∃ n' c, n = S n' ∧ String.get n' s = Some c ∧
          same_ctx frontend_re (Some c) (Some dq).
Proof.
  intros [_ Hm]%match_at_anchor.
  apply (match_here_last
           (lit (String dq "version" +:+ String dq ":") ++
            [Star is_space; Chr (is_char dq); Star not_quote])
           (is_char dq)) in Hm as (n' & c & -> & Hg & _).
  - by exists n', c.
  - simpl. repeat constructor.
Qed.

Lemma frontend_repl p T :
  anchor_ok (anchored frontend_re) p = true →
  sub_from frontend_re (frontend_line v) 0 p (frontend_line v +:+ T)
  = frontend_line v +:+ sub_from frontend_re (frontend_line v) 0 (Some dq) T.
Proof.
  intros _.
  assert (match_at frontend_re p (frontend_line v +:+ T)
          = Some (13 + String.length v)) as Hm by apply frontend_self_match.
  rewrite frontend_line_app in Hm |- * at 1.
  change (String dq ("version" +:+ String dq (": " +:+ String dq (v +:+ String dq T))))
    with (String dq ((("version" +:+ String dq ": ") +:+ String dq v) +:+ String dq T))
    in Hm |- *.
  rewrite (sub_from_match _ _ _ _ _ _ Hm). f_equal.
  change (12 + String.length v)
    with (S (String.length (("version" +:+ String dq ": ") +:+ String dq v))).
  apply sub_from_skip.
Qed.

(** A text with a match at its start begins with the quoted key. *)
Lemma frontend_head s :
  is_Some (match_here (body frontend_re) s) →
  ∃ r, s = String dq ("version" +:+ String dq r).
Proof.
  intros [n Hm]. unfold frontend_re in Hm. cbn [body lit app String.append] in Hm.
  do 9 (apply chr_inv in Hm as (? & ? & ? & -> & ->%is_char_eq & Hm & _)).
  by eexists.
Qed.

Lemma frontend_cross u T s :
  u ∈ tails (lit ("version" +:+ String dq ":") ++
             [Star is_space; Chr (is_char dq); Star not_quote;
              Chr (is_char dq)]) →
  is_Some (match_here (body frontend_re) s) →
  accepts u (frontend_line v +:+ T) → accepts u s.
Proof.
  intros Hu [r ->]%frontend_head. rewrite frontend_line_app. simpl in Hu.
  rewrite !elem_of_cons, elem_of_nil in Hu.
  repeat (destruct Hu as [->|Hu]); try done;
    try (by intros [? [=]]); intros _; by eexists.
Qed.

Lemma frontend_sub_stable content :
  re_sub frontend_re (frontend_line v)
    (re_sub frontend_re (frontend_line v) content)
  = re_sub frontend_re (frontend_line v) content.
Proof.
  apply (re_sub_stable frontend_re (frontend_line v) dq).
  - apply frontend_last.
  - apply frontend_repl.
  - apply (no_match_after_sub frontend_re (frontend_line v)
             (is_char dq)
             (lit ("version" +:+ String dq ":") ++
              [Star is_space; Chr (is_char dq); Star not_quote;
               Chr (is_char dq)])).
    + done.
    + simpl. repeat constructor.
    + apply frontend_cross.
Qed.

End frontend.

Section typescript.
Local Arguments String.append !_ _ / : simpl nomatch.

Variable v : string.
Hypothesis Hv : valid_version v.

Local Arguments is_char : simpl never.

(** Decide the character tests of the goal: by evaluation where the
    character is known, by cases where it is a variable. *)
Ltac char_tests :=
  repeat (match goal with
          | |- context [is_char ?a ?c] =>
              first [ is_var c; destruct (is_char a c)
                    | let b := eval vm_compute in (is_char a c) in
                      change (is_char a c) with b ]
          end; simpl).

Lemma typescript_line_app T :
  typescript_line v +:+ T = "return '" +:+ v +:+ String "'" T.
Proof. unfold typescript_line. by rewrite !app_assoc'. Qed.

Lemma version_char_plain c :
  version_char c = true →
  is_char "r"%char c = false ∧ is_char "'"%char c = false.
Proof. by destruct c as [[] [] [] [] [] [] [] []]. Qed.

Lemma typescript_last p s n :
  match_at typescript_re p s = Some n →
  ∃ n' c, n = S n' ∧ String.get n' s = Some c ∧
          same_ctx typescript_re (Some c) (Some "'"%char).
Proof.
  intros [_ Hm]%match_at_anchor.
  apply (match_here_last (lit "return '1.0.0") (is_char "'"%char)) in Hm
    as (n' & c & -> & Hg & _).
  - by exists n', c.
  - simpl. repeat constructor.
Qed.

Lemma typescript_cross u T s :
  u ∈ tails (lit "eturn '1.0.0'") →
  is_Some (match_here (body typescript_re) s) →
  accepts u (typescript_line v +:+ T) → accepts u s.
Proof.
  intros Hu _. rewrite typescript_line_app. simpl in Hu.
  rewrite !elem_of_cons, elem_of_nil in Hu.
  repeat (destruct Hu as [->|Hu]); try done; by intros [? [=]].
Qed.

(** The version is the text the pattern looks for, or the replacement has
    no match of the pattern at its start. *)
Lemma typescript_rematch T :
  v = "1.0.0" ∨
  match_here (lit "1.0.0'") (v +:+ String "'" T) = None.
Proof.
  pose proof (valid_version_chars v Hv) as Hc.
  destruct v as [|c1 [|c2 [|c3 [|c4 [|c5 [|c6 v']]]]]];
    try (right; simpl; char_tests; done).
  - destruct (is_char "1" c1) eqn:E1; [|right; simpl; by rewrite E1].
    destruct (is_char "." c2) eqn:E2; [|right; simpl; by rewrite E1, E2].
    destruct (is_char "0" c3) eqn:E3; [|right; simpl; by rewrite E1, E2, E3].
    destruct (is_char "." c4) eqn:E4;
      [|right; simpl; by rewrite E1, E2, E3, E4].
    destruct (is_char "0" c5) eqn:E5;
      [|right; simpl; by rewrite E1, E2, E3, E4, E5].
    left. by apply is_char_eq in E1 as ->, E2 as ->, E3 as ->, E4 as ->, E5 as ->.
  - right. simpl.
    rewrite !all_chars_cons, !andb_true_iff in Hc.
    destruct Hc as (_ & _ & _ & _ & _ & [_ H6]%version_char_plain & _).
    rewrite H6. char_tests; done.
Qed.

(** A pass over a text of version characters copies it. *)
Lemma typescript_over_version R w p T :
  all_chars version_char w = true →
  sub_from typescript_re R 0 p (w +:+ String "'" T)
  = w +:+ String "'" (sub_from typescript_re R 0 (Some "'"%char) T).
Proof.
  revert p. induction w as [|c w IH]; intros p Hw; [done|].
  rewrite all_chars_cons, andb_true_iff in Hw.
  destruct Hw as [[Hc _]%version_char_plain Hw].
  change (String c w +:+ String "'" T) with (String c (w +:+ String "'" T)).
  rewrite sub_from_no_match.
  - simpl. f_equal. by apply IH.
  - unfold match_at. simpl. by rewrite Hc.
Qed.

Lemma typescript_repl p T :
  anchor_ok (anchored typescript_re) p = true →
  sub_from typescript_re (typescript_line v) 0 p (typescript_line v +:+ T)
  = typescript_line v +:+
    sub_from typescript_re (typescript_line v) 0 (Some "'"%char) T.
Proof.
  intros _. destruct (typescript_rematch T) as [E|E].
  - rewrite E. reflexivity.
  - rewrite !typescript_line_app.
    generalize (typescript_line v). intros R.
    change ("return '" +:+ v +:+ String "'" T)
      with (String "r" ("eturn '" +:+ v +:+ String "'" T)).
    rewrite sub_from_no_match.
    2:{ unfold match_at. simpl. simpl in E. by rewrite E. }
    simpl. do 8 f_equal.
    by apply typescript_over_version, valid_version_chars.
Qed.

Lemma typescript_sub_stable content :
  re_sub typescript_re (typescript_line v)
    (re_sub typescript_re (typescript_line v) content)
  = re_sub typescript_re (typescript_line v) content.
Proof.
  apply (re_sub_stable typescript_re (typescript_line v) "'"%char).
  - apply typescript_last.
  - apply typescript_repl.
  - apply (no_match_after_sub typescript_re (typescript_line v)
             (is_char "r"%char) (lit "eturn '1.0.0'")).
    + done.
    + simpl. repeat constructor.
    + apply typescript_cross.
Qed.

End typescript.

(** ** Running an update twice *)

Section twice.

Lemma rewrite_file_idem p re repl fs :
  (∀ content, re_sub re repl (re_sub re repl content) = re_sub re repl content) →
  rewrite_file p re repl (rewrite_file p re repl fs)
  = rewrite_file p re repl fs.
Proof.
  intros Hsub. unfold rewrite_file at 2.
  destruct (fs !! p) as [[[] [] content|]|] eqn:E;
    try (unfold rewrite_file; by rewrite E).
  destruct (re_search re content) eqn:Hs.
  - unfold rewrite_file. rewrite lookup_insert_eq, Hsub, E, Hs.
    destruct (re_search re (re_sub re repl content)); [|done].
    apply insert_insert_eq.
  - unfold rewrite_file. by rewrite E, Hs.
Qed.

Lemma rewrite_file_lookup_ne p q re repl fs :
  p ≠ q → rewrite_file p re repl fs !! q = fs !! q.
Proof.
  intros Hpq. unfold rewrite_file.
  destruct (fs !! p) as [[[] [] content|]|]; try done.
  destruct (re_search re content); [|done]. by apply lookup_insert_ne.
Qed.

Lemma rewrite_file_comm p q re repl fs :
  p ≠ q →
  rewrite_file p re repl (rewrite_file q re repl fs)
  = rewrite_file q re repl (rewrite_file p re repl fs).
Proof.
  intros Hpq. unfold rewrite_file at 1 3.
  rewrite !rewrite_file_lookup_ne by done.
  destruct (fs !! p) as [[[] [] c1|]|] eqn:E1; try done;
    destruct (fs !! q) as [[[] [] c2|]|] eqn:E2; try done;
    unfold rewrite_file; rewrite ?E1, ?E2; try done;
    destruct (re_search re c1); try done;
    destruct (re_search re c2); try done.
  by apply insert_insert_ne.
Qed.

Lemma update_backend_version_files st :
  files (snd (update_backend_version st))
  = rewrite_file (cargo_file st) backend_re (backend_line (version st)) (files st)
  ∧ version (snd (update_backend_version st)) = version st
  ∧ project_root (snd (update_backend_version st)) = project_root st.
Proof.
  unfold update_backend_version, rewrite_file. run.
  unfold path_exists, read_file, write_file.
  destruct (files st !! cargo_file st) as [[[] [] content|]|] eqn:E;
    simpl; rewrite ?E; simpl; try done;
    destruct (re_search backend_re content); simpl; rewrite ?E; done.
Qed.

Lemma update_frontend_version_files st :
  files (snd (update_frontend_version st))
  = rewrite_file (package_file st) frontend_re (frontend_line (version st)) (files st)
  ∧ version (snd (update_frontend_version st)) = version st
  ∧ project_root (snd (update_frontend_version st)) = project_root st.
Proof.
  unfold update_frontend_version, rewrite_file. run.
  unfold path_exists, read_file, write_file.
  destruct (files st !! package_file st) as [[[] [] content|]|] eqn:E;
    simpl; rewrite ?E; simpl; try done;
    destruct (re_search frontend_re content); simpl; rewrite ?E; done.
Qed.

Lemma update_typescript_file_files ts_file updated st :
  files (snd (update_typescript_file ts_file updated st))
  = rewrite_file (project_root st ++ ts_file) typescript_re
      (typescript_line (version st)) (files st)
  ∧ version (snd (update_typescript_file ts_file updated st)) = version st
  ∧ project_root (snd (update_typescript_file ts_file updated st))
    = project_root st.
Proof.
  unfold update_typescript_file, rewrite_file. run.
  unfold path_exists, read_file, write_file.
  destruct (files st !! (project_root st ++ ts_file))
    as [[[] [] content|]|] eqn:E;
    simpl; rewrite ?E; simpl; try done;
    destruct (re_search typescript_re content); simpl; rewrite ?E; done.
Qed.

Lemma update_typescript_version_files st :
  files (snd (update_typescript_version st))
  = rewrite_file (project_root st ++ ts_files !!! 1) typescript_re
      (typescript_line (version st))
      (rewrite_file (project_root st ++ ts_files !!! 0) typescript_re
         (typescript_line (version st)) (files st))
  ∧ version (snd (update_typescript_version st)) = version st
  ∧ project_root (snd (update_typescript_version st)) = project_root st.
Proof.
  unfold update_typescript_version, ts_files, for_ts_files, mbind, M_bind.
  change ([["frontend"; "src"; "services"; "AutoUpdater.ts"];
           ["frontend"; "src"; "services"; "BackendService.ts"]] !!! 0)
    with ["frontend"; "src"; "services"; "AutoUpdater.ts"].
  change ([["frontend"; "src"; "services"; "AutoUpdater.ts"];
           ["frontend"; "src"; "services"; "BackendService.ts"]] !!! 1)
    with ["frontend"; "src"; "services"; "BackendService.ts"].
  set (f1 := ["frontend"; "src"; "services"; "AutoUpdater.ts"]).
  set (f2 := ["frontend"; "src"; "services"; "BackendService.ts"]).
  pose proof (update_typescript_file_files f1 false st) as (F1 & V1 & R1).
  destruct (update_typescript_file_returns f1 false st) as (u & st1 & E1).
  rewrite E1 in *. simpl in F1, V1, R1.
  pose proof (update_typescript_file_files f2 u st1) as (F2 & V2 & R2).
  destruct (update_typescript_file_returns f2 u st1) as (b & st2 & E2).
  rewrite E2 in *. simpl in *. by rewrite F2, F1, V2, V1, R2, R1.
Qed.

End twice.

(** C7. With a valid version in memory, the replacement of each target is
    stable under a second pass, and running the update of a target twice
    in succession leaves the same files as running it once: for the backend
    manifest, for the frontend manifest and for the two TypeScript files. *)
Theorem propagate_idempotent st :
  valid_version (version st) →
  (∀ content,
     re_sub backend_re (backend_line (version st))
       (re_sub backend_re (backend_line (version st)) content)
     = re_sub backend_re (backend_line (version st)) content) ∧
  (∀ content,
     re_sub frontend_re (frontend_line (version st))
       (re_sub frontend_re (frontend_line (version st)) content)
     = re_sub frontend_re (frontend_line (version st)) content) ∧
  (∀ content,
     re_sub typescript_re (typescript_line (version st))
       (re_sub typescript_re (typescript_line (version st)) content)
     = re_sub typescript_re (typescript_line (version st)) content) ∧
  files (snd (update_backend_version (snd (update_backend_version st))))
  = files (snd (update_backend_version st)) ∧
  files (snd (update_frontend_version (snd (update_frontend_version st))))
  = files (snd (update_frontend_version st)) ∧
  files (snd (update_typescript_version (snd (update_typescript_version st))))
  = files (snd (update_typescript_version st)).
Proof.
  intros Hv.
  pose proof (backend_sub_stable _ Hv) as Hb.
  pose proof (frontend_sub_stable _ Hv) as Hf.
  pose proof (typescript_sub_stable _ Hv) as Ht.
  split_and!; try done.
  - destruct (update_backend_version_files st) as (F1 & V1 & R1).
    destruct (update_backend_version_files (snd (update_backend_version st)))
      as (F2 & _ & _).
    rewrite F2, F1, V1. unfold cargo_file. rewrite R1.
    by apply rewrite_file_idem.
  - destruct (update_frontend_version_files st) as (F1 & V1 & R1).
    destruct (update_frontend_version_files (snd (update_frontend_version st)))
      as (F2 & _ & _).
    rewrite F2, F1, V1. unfold package_file. rewrite R1.
    by apply rewrite_file_idem.
  - destruct (update_typescript_version_files st) as (F1 & V1 & R1).
    destruct (update_typescript_version_files
                (snd (update_typescript_version st))) as (F2 & _ & _).
    rewrite F2, F1, V1, R1.
    set (p1 := project_root st ++ ts_files !!! 0).
    set (p2 := project_root st ++ ts_files !!! 1).
    assert (p1 ≠ p2) as Hne by (intros H%app_inv_head; discriminate H).
    rewrite (rewrite_file_comm p1 p2) by done.
    rewrite (rewrite_file_idem p1) by done.
    by apply rewrite_file_idem.
Qed.

Lemma propagate_idempotent_witness :
  files (snd (update_backend_version (snd (update_backend_version sample_state))))
  = files (snd (update_backend_version sample_state)).
Proof.
  apply (propagate_idempotent sample_state). split; reflexivity.
Defined.

(** A run of the backend update on the sample: the version line is
    rewritten, and a second run leaves the file as it is. *)
Example update_backend_sample :
  files (snd (update_backend_version sample_state)) !! ["backend"; "Cargo.toml"]
  = Some (File true true
            ("[package]
name = " +:+ quoted "backend" +:+ "
version = " +:+ quoted "1.2.3" +:+ "
")).
Proof. by vm_compute. Qed.

(** * Further properties of the version manager *)

(** ** Construction *)

Lemma VersionManager_ret_iff root w st :
  VersionManager root w = Ret st ↔
  ∃ wr content,
    w_files w !! (root </> "VERSION") = Some (File true wr content) ∧
    triple_text (strip content) ∧
    st = State root (strip content) (w_files w) (w_console w).
Proof.
  unfold VersionManager, _read_version, path_exists, read_file. split.
  - destruct (w_files w !! (root </> "VERSION")) as [[[] wr content|]|];
      simpl; try done.
    destruct (re_match version_re (strip content)) eqn:Hm; simpl; [|done].
    intros [= <-]. exists wr, content. split_and!; try done.
    apply match_triple_text; [apply strip_idem|done].
  - intros (wr & content & -> & Ht & ->). simpl.
    by rewrite (triple_text_match _ Ht).
Qed.

(** X1. [VersionManager(root)] succeeds exactly when [root/VERSION] is a file
    that can be read and whose stripped content is digits, dot, digits, dot,
    digits; the version in memory is then the stripped content, and nothing
    of the environment is changed. *)
Theorem VersionManager_spec root w st :
  VersionManager root w = Ret st ↔
  ∃ wr content,
    w_files w !! (root </> "VERSION") = Some (File true wr content) ∧
    triple_text (strip content) ∧
    st = State root (strip content) (w_files w) (w_console w).
Proof. apply VersionManager_ret_iff. Qed.

(** ** Bumping *)

Section bump_more.

Lemma bump_version_ret_inv bump_type st v' st' :
  bump_version bump_type st = (Ret v', st') →
  bump_type ∈ bump_types ∧
  writable (files st) (version_file st) = true ∧
  st' = bumped st v' ∧
  ∃ a b c, parse_triple (version st) = Ret (a, b, c) ∧
    ((bump_type = "major" ∧ v' = render (a + 1) 0 0) ∨
     (bump_type = "minor" ∧ v' = render a (b + 1) 0) ∨
     (bump_type = "patch" ∧ v' = render a b (c + 1))).
Proof.
  unfold bump_version. run.
  destruct (parse_triple (version st)) as [[[a b] c]|] eqn:Hp; simpl; [|done].
  unfold bump_types. rewrite !elem_of_cons.
  destruct (String.eqb_spec bump_type "major") as [->|_]; simpl.
  { destruct (write_file _ _ _) as [fs|] eqn:Hw; simpl; [|done].
    apply write_file_ret in Hw as [Hw ->]. intros [= <- <-].
    split_and!; eauto 10. }
  destruct (String.eqb_spec bump_type "minor") as [->|_]; simpl.
  { destruct (write_file _ _ _) as [fs|] eqn:Hw; simpl; [|done].
    apply write_file_ret in Hw as [Hw ->]. intros [= <- <-].
    split_and!; eauto 10. }
  destruct (String.eqb_spec bump_type "patch") as [->|_]; simpl; [|done].
  destruct (write_file _ _ _) as [fs|] eqn:Hw; simpl; [|done].
  apply write_file_ret in Hw as [Hw ->]. intros [= <- <-].
  split_and!; eauto 10.
Qed.

Lemma write_file_not_writable fs p content :
  writable fs p = false →
  ∃ e, write_file fs p content = Raise e ∧ ∀ msg, e ≠ ValueError msg.
Proof.
  unfold writable, write_file.
  destruct (fs !! p) as [[r [] c|]|]; try done; try by eexists.
  destruct (fs !! parent p) as [[|]|]; try done; by eexists.
Qed.

End bump_more.

(** X2. A bump is seen by the next process: when a manager built from the
    environment bumps its version with success, a manager built afterwards
    from the environment the bump left holds the version the bump
    returned. *)
Theorem bump_then_read root w st bump_type v' st' :
  VersionManager root w = Ret st →
  bump_version bump_type st = (Ret v', st') →
  VersionManager root (world_of st')
  = Ret (State root v' (files st') (console st')).
Proof.
  intros (wr & content & Hf & _ & ->)%VersionManager_ret_iff Hb.
  apply bump_version_ret_inv in Hb as (_ & _ & -> & a & b & c & _ & Hv').
  apply VersionManager_ret_iff.
  assert (triple_text v') as Ht.
  { destruct Hv' as [[_ ->]|[[_ ->]|[_ ->]]]; apply render_triple_text. }
  exists true, v'. rewrite (triple_text_strip _ Ht). split_and!; try done.
  simpl. unfold written, version_file. simpl. rewrite Hf.
  apply lookup_insert_eq.
Qed.

Lemma bump_then_read_witness :
  VersionManager [] (world_of (bumped sample_state "1.3.0"))
  = Ret (State [] "1.3.0" (files (bumped sample_state "1.3.0"))
           (console (bumped sample_state "1.3.0"))).
Proof.
  apply (bump_then_read [] sample_world sample_state "minor" "1.3.0");
    reflexivity.
Defined.

(** X3. A bump that succeeds moves the version up: the version it returns
    reads as a triple above the triple of the version before, it is the text
    of that triple without leading zeros, it is valid, and the canonical file
    can be written again, so that bumps can follow one another. *)
Theorem bump_version_increases st bump_type v' st' a b c :
  parse_triple (version st) = Ret (a, b, c) →
  bump_version bump_type st = (Ret v', st') →
  ∃ a' b' c',
    parse_triple v' = Ret (a', b', c') ∧
    triple_lt (a, b, c) (a', b', c') ∧
    v' = render a' b' c' ∧
    version st' = v' ∧ valid_version (version st') ∧
    writable (files st') (version_file st') = true.
Proof.
  intros Hp Hb.
  apply bump_version_ret_inv in Hb
    as (_ & _ & -> & a0 & b0 & c0 & Hp' & Hv').
  rewrite Hp in Hp'. injection Hp' as <- <- <-.
  assert (∀ a' b' c', v' = render a' b' c' →
    triple_lt (a, b, c) (a', b', c') →
    ∃ a' b' c', parse_triple v' = Ret (a', b', c') ∧
      triple_lt (a, b, c) (a', b', c') ∧ v' = render a' b' c' ∧
      version (bumped st v') = v' ∧ valid_version (version (bumped st v')) ∧
      writable (files (bumped st v')) (version_file (bumped st v')) = true)
    as Hall.
  { intros a' b' c' -> Hlt. exists a', b', c'.
    split_and!; try done.
    - apply parse_triple_render.
    - apply bumped_valid.
    - apply written_writable. }
  destruct Hv' as [[_ ->]|[[_ ->]|[_ ->]]]; eapply Hall; try done; simpl; lia.
Qed.

Lemma bump_version_increases_witness :
  ∃ a' b' c',
    parse_triple "2.0.0" = Ret (a', b', c') ∧
    triple_lt (1, 2, 3)%N (a', b', c') ∧
    "2.0.0" = render a' b' c' ∧
    version (bumped sample_state "2.0.0") = "2.0.0" ∧
    valid_version (version (bumped sample_state "2.0.0")) ∧
    writable (files (bumped sample_state "2.0.0"))
      (version_file (bumped sample_state "2.0.0")) = true.
Proof.
  apply (bump_version_increases sample_state "major" "2.0.0"
           (bumped sample_state "2.0.0") 1 2 3); reflexivity.
Defined.




(** ** What an update returns and writes *)

Section effects.

Lemma rewrite_file_not_rewritable p re repl fs :
  rewritable p re fs = false → rewrite_file p re repl fs = fs.
Proof.
  unfold rewritable, rewrite_file.
  destruct (fs !! p) as [[[] [] content|]|]; try done. by intros ->.
Qed.


Lemma rewritable_lookup p re fs fs' :
  fs !! p = fs' !! p → rewritable p re fs = rewritable p re fs'.
Proof. unfold rewritable. by intros ->. Qed.

Lemma written_lookup_ne fs p q content :
  p ≠ q → written fs p content !! q = fs !! q.
Proof.
  intros Hpq. unfold written.
  destruct (fs !! p) as [[r w c|]|]; by apply lookup_insert_ne.
Qed.

Lemma update_backend_version_result st :
  fst (update_backend_version st)
  = Ret (rewritable (cargo_file st) backend_re (files st)).
Proof.
  unfold update_backend_version, rewritable. run.
  unfold path_exists, read_file, write_file.
  destruct (files st !! cargo_file st) as [[[] [] content|]|] eqn:E;
    simpl; rewrite ?E; simpl; try done;
    destruct (re_search backend_re content); simpl; rewrite ?E; done.
Qed.

Lemma update_frontend_version_result st :
  fst (update_frontend_version st)
  = Ret (rewritable (package_file st) frontend_re (files st)).
Proof.
  unfold update_frontend_version, rewritable. run.
  unfold path_exists, read_file, write_file.
  destruct (files st !! package_file st) as [[[] [] content|]|] eqn:E;
    simpl; rewrite ?E; simpl; try done;
    destruct (re_search frontend_re content); simpl; rewrite ?E; done.
Qed.

Lemma update_typescript_file_result ts_file updated st :
  fst (update_typescript_file ts_file updated st)
  = Ret (rewritable (project_root st ++ ts_file) typescript_re (files st)
         || updated).
Proof.
  unfold update_typescript_file, rewritable. run.
  unfold path_exists, read_file, write_file.
  destruct (files st !! (project_root st ++ ts_file))
    as [[[] [] content|]|] eqn:E;
    simpl; rewrite ?E; simpl; try done;
    destruct (re_search typescript_re content); simpl; rewrite ?E; done.
Qed.

Lemma update_typescript_version_result st :
  fst (update_typescript_version st)
  = Ret (rewritable (ts_file_2 st) typescript_re (files st)
         || rewritable (ts_file_1 st) typescript_re (files st)).
Proof.
  unfold update_typescript_version, ts_files, for_ts_files, mbind, M_bind.
  set (f1 := ["frontend"; "src"; "services"; "AutoUpdater.ts"]).
  set (f2 := ["frontend"; "src"; "services"; "BackendService.ts"]).
  pose proof (update_typescript_file_result f1 false st) as H1.
  pose proof (update_typescript_file_files f1 false st) as (F1 & V1 & R1).
  destruct (update_typescript_file f1 false st) as [[u|] st1]; [|done].
  simpl in H1, F1, V1, R1. injection H1 as ->.
  pose proof (update_typescript_file_result f2
                (rewritable (project_root st ++ f1) typescript_re (files st)
                 || false) st1) as H2.
  destruct (update_typescript_file f2 _ st1) as [[u|] st2]; [|done].
  simpl in *. rewrite H2. f_equal. rewrite orb_false_r, R1, F1.
  f_equal. apply rewritable_lookup. apply rewrite_file_lookup_ne.
  unfold f1, f2. intros H%app_inv_head. discriminate H.
Qed.

Lemma create_version_header_effect st :
  fst (create_version_header st)
  = Ret (writable (files st) (header_file st)) ∧
  files (snd (create_version_header st))
  = write_header (header_file st) (version st) (files st) ∧
  version (snd (create_version_header st)) = version st ∧
  project_root (snd (create_version_header st)) = project_root st.
Proof.
  unfold create_version_header, write_header. run.
  destruct (writable (files st) (header_file st)) eqn:Hw.
  - by rewrite write_file_writable.
  - destruct (write_file_not_writable _ _ (header_content (version st)) Hw)
      as (e & -> & _). done.
Qed.

End effects.





(** ** The batch *)

Section batch.

(** The file system [update_all_components] leaves. *)
Lemma update_all_components_files st :
  files (snd (update_all_components st))
  = write_header (header_file st) (version st)
      (rewrite_file (ts_file_2 st) typescript_re (typescript_line (version st))
         (rewrite_file (ts_file_1 st) typescript_re (typescript_line (version st))
            (rewrite_file (package_file st) frontend_re
               (frontend_line (version st))
               (rewrite_file (cargo_file st) backend_re
                  (backend_line (version st)) (files st))))) ∧
  version (snd (update_all_components st)) = version st ∧
  project_root (snd (update_all_components st)) = project_root st.
Proof.
  unfold update_all_components, mbind, M_bind.
  pose proof (update_backend_version_files st) as (F1 & V1 & R1).
  destruct (update_backend_version_returns st) as (b1 & st1 & E1).
  rewrite E1 in *. simpl in F1, V1, R1.
  pose proof (update_frontend_version_files st1) as (F2 & V2 & R2).
  destruct (update_frontend_version_returns st1) as (b2 & st2 & E2).
  rewrite E2 in *. simpl in F2, V2, R2.
  pose proof (update_typescript_version_files st2) as (F3 & V3 & R3).
  destruct (update_typescript_version_returns st2) as (b3 & st3 & E3).
  rewrite E3 in *. simpl in F3, V3, R3.
  pose proof (create_version_header_effect st3) as (_ & F4 & V4 & R4).
  destruct (create_version_header_returns st3) as (b4 & st4 & E4).
  rewrite E4 in *. simpl in F4, V4, R4 |- *.
  split_and!; [|congruence..].
  rewrite F4, F3, F2, F1.
  unfold header_file, ts_file_1, ts_file_2, package_file, cargo_file.
  change (ts_files !!! 0) with ["frontend"; "src"; "services"; "AutoUpdater.ts"].
  change (ts_files !!! 1) with ["frontend"; "src"; "services"; "BackendService.ts"].
  by rewrite R3, R2, R1, V3, V2, V1.
Qed.

Lemma write_header_lookup_ne p v fs q :
  q ≠ p → write_header p v fs !! q = fs !! q.
Proof.
  intros Hq. unfold write_header. destruct (writable fs p); [|done].
  by apply written_lookup_ne.
Qed.

End batch.

(** X9. [update_all_components] writes nothing but its five target files:
    every other path, the canonical [VERSION] file among them, is as before,
    and so are the version in memory and the project root. The canonical
    version is never written back from a dependent file. *)
Theorem update_all_components_frame st :
  (∀ q, q ∉ target_files st →
        files (snd (update_all_components st)) !! q = files st !! q) ∧
  files (snd (update_all_components st)) !! version_file st
  = files st !! version_file st ∧
  version (snd (update_all_components st)) = version st ∧
  project_root (snd (update_all_components st)) = project_root st.
Proof.
  destruct (update_all_components_files st) as (F & V & R).
  assert (∀ q, q ∉ target_files st →
    files (snd (update_all_components st)) !! q = files st !! q) as Hframe.
  { intros q Hq. unfold target_files in Hq.
    rewrite !not_elem_of_cons in Hq. destruct Hq as (? & ? & ? & ? & ? & _).
    rewrite F. rewrite write_header_lookup_ne by done.
    by rewrite !rewrite_file_lookup_ne. }
  split_and!; try done.
  apply Hframe. unfold target_files, version_file, cargo_file, package_file,
    ts_file_1, ts_file_2, header_file, pjoin.
  rewrite <- !app_assoc. simpl.
  rewrite !not_elem_of_cons. split_and!; try apply not_elem_of_nil;
    intros H%app_inv_head; discriminate H.
Qed.

(** ** Running the batch twice *)

Section batch_twice.

Lemma acts_on_rewrite_file p re repl : acts_on [p] (rewrite_file p re repl).
Proof.
  split.
  - intros fs q Hq. apply rewrite_file_lookup_ne.
    intros ->. apply Hq. by left.
  - intros fs fs' Hagree q ->%list_elem_of_singleton.
    pose proof (Hagree p ltac:(by left)) as E.
    unfold rewrite_file. rewrite <- E.
    destruct (fs !! p) as [[[] [] content|]|] eqn:E';
      try (by rewrite E', E).
    destruct (re_search re content); [|by rewrite E', E].
    by rewrite !lookup_insert_eq.
Qed.

Lemma acts_on_write_header p v : acts_on [p; parent p] (write_header p v).
Proof.
  split.
  - intros fs q Hq. apply write_header_lookup_ne.
    intros ->. apply Hq. by left.
  - intros fs fs' Hagree q Hq.
    pose proof (Hagree p ltac:(by left)) as Ep.
    pose proof (Hagree (parent p) ltac:(right; by left)) as Epp.
    assert (writable fs p = writable fs' p) as Hw.
    { unfold writable. by rewrite Ep, Epp. }
    unfold write_header. rewrite <- Hw.
    destruct (writable fs p); [|by apply Hagree].
    destruct (decide (q = p)) as [->|Hne].
    + unfold written. rewrite <- Ep.
      destruct (fs !! p) as [[r w c|]|]; by rewrite !lookup_insert_eq.
    + rewrite !written_lookup_ne by done. by apply Hagree.
Qed.

(** Transformations on disjoint sets of paths commute. *)
Lemma acts_on_comm P Q f g :
  acts_on P f → acts_on Q g → (∀ q, q ∈ P → q ∉ Q) →
  ∀ fs, f (g fs) = g (f fs).
Proof.
  intros [Hf1 Hf2] [Hg1 Hg2] Hd fs. apply map_eq. intros q.
  destruct (decide (q ∈ P)) as [HP|HP].
  - rewrite (Hg1 (f fs) q) by auto.
    apply Hf2; [|done]. intros q' Hq'. apply Hg1. auto.
  - rewrite (Hf1 (g fs) q HP).
    destruct (decide (q ∈ Q)) as [HQ|HQ].
    + apply Hg2; [|done]. intros q' Hq'. symmetry. apply Hf1.
      intros Hq''. by apply (Hd q').
    + by rewrite !Hg1, Hf1.
Qed.

Lemma acts_on_compose P Q f g :
  acts_on P f → acts_on Q g → acts_on (P ++ Q) (λ fs, f (g fs)).
Proof.
  intros [Hf1 Hf2] [Hg1 Hg2]. split.
  - intros fs q [HP HQ]%not_elem_of_app. by rewrite Hf1, Hg1.
  - intros fs fs' Hagree q Hq.
    assert (∀ q', q' ∈ P ++ Q → g fs !! q' = g fs' !! q') as Hg.
    { intros q' Hq'. destruct (decide (q' ∈ Q)) as [HQ|HQ].
      - apply Hg2; [|done]. intros q'' Hq''. apply Hagree.
        apply elem_of_app. by right.
      - rewrite !Hg1 by done. by apply Hagree. }
    destruct (decide (q ∈ P)) as [HP|HP].
    + apply Hf2; [|done]. intros q' Hq'. apply Hg.
      apply elem_of_app. by left.
    + rewrite !Hf1 by done. by apply Hg.
Qed.

Lemma twice_compose (f g : gmap path node → gmap path node) :
  (∀ fs, f (g fs) = g (f fs)) →
  (∀ fs, f (f fs) = f fs) → (∀ fs, g (g fs) = g fs) →
  ∀ fs, f (g (f (g fs))) = f (g fs).
Proof. intros Hc Hf Hg fs. by rewrite <- (Hc (g fs)), Hf, Hg. Qed.

Lemma write_header_twice p v fs :
  write_header p v (write_header p v fs) = write_header p v fs.
Proof.
  unfold write_header at 2. destruct (writable fs p) eqn:Hw.
  - unfold write_header. rewrite written_writable, Hw. apply written_twice.
  - unfold write_header. by rewrite Hw.
Qed.

End batch_twice.

(** Membership in a list of paths under the project root, decided by the
    parts after the root. *)
Ltac paths_apart :=
  unfold target_files, version_file, cargo_file, package_file,
    ts_file_1, ts_file_2, header_file, parent, pjoin;
  rewrite <- ?app_assoc; simpl;
  rewrite ?removelast_app by done; simpl;
  intros q; rewrite ?elem_of_cons, ?elem_of_nil;
  intros Hq1 Hq2;
  repeat (destruct Hq1 as [Hq1|Hq1]); try done;
  repeat (destruct Hq2 as [Hq2|Hq2]); try done;
  subst q; apply app_inv_head in Hq2; discriminate Hq2.

(** X10. With a valid version in memory, running [update_all_components]
    twice in succession leaves the same files as running it once. *)
Theorem update_all_components_idempotent st :
  valid_version (version st) →
  files (snd (update_all_components (snd (update_all_components st))))
  = files (snd (update_all_components st)).
Proof.
  intros Hv.
  destruct (update_all_components_files st) as (F1 & V1 & R1).
  destruct (update_all_components_files (snd (update_all_components st)))
    as (F2 & _ & _).
  rewrite F2, F1, V1.
  unfold header_file, ts_file_1, ts_file_2, package_file, cargo_file.
  rewrite R1.
  fold (cargo_file st) (package_file st) (ts_file_1 st) (ts_file_2 st)
    (header_file st).
  set (A := rewrite_file (cargo_file st) backend_re (backend_line (version st))).
  set (B := rewrite_file (package_file st) frontend_re (frontend_line (version st))).
  set (C1 := rewrite_file (ts_file_1 st) typescript_re (typescript_line (version st))).
  set (C2 := rewrite_file (ts_file_2 st) typescript_re (typescript_line (version st))).
  set (H := write_header (header_file st) (version st)).
  assert (acts_on [cargo_file st] A) as HA by apply acts_on_rewrite_file.
  assert (acts_on [package_file st] B) as HB by apply acts_on_rewrite_file.
  assert (acts_on [ts_file_1 st] C1) as HC1 by apply acts_on_rewrite_file.
  assert (acts_on [ts_file_2 st] C2) as HC2 by apply acts_on_rewrite_file.
  assert (acts_on [header_file st; parent (header_file st)] H) as HH
    by apply acts_on_write_header.
  assert (∀ fs, A (A fs) = A fs) as IA
    by (intros; apply rewrite_file_idem, backend_sub_stable, Hv).
  assert (∀ fs, B (B fs) = B fs) as IB
    by (intros; apply rewrite_file_idem, frontend_sub_stable, Hv).
  assert (∀ fs, C1 (C1 fs) = C1 fs) as IC1
    by (intros; apply rewrite_file_idem, typescript_sub_stable, Hv).
  assert (∀ fs, C2 (C2 fs) = C2 fs) as IC2
    by (intros; apply rewrite_file_idem, typescript_sub_stable, Hv).
  assert (∀ fs, H (H fs) = H fs) as IH by (intros; apply write_header_twice).
  pose proof (acts_on_compose _ _ _ _ HB HA) as HBA.
  pose proof (acts_on_compose _ _ _ _ HC1 HBA) as HCBA.
  pose proof (acts_on_compose _ _ _ _ HC2 HCBA) as HCCBA.
  assert (∀ fs, B (A (B (A fs))) = B (A fs)) as IBA.
  { apply twice_compose; try done.
    apply (acts_on_comm _ _ _ _ HB HA). clear. paths_apart. }
  assert (∀ fs, C1 (B (A (C1 (B (A fs))))) = C1 (B (A fs))) as ICBA.
  { apply (twice_compose C1 (λ fs, B (A fs))); try done.
    apply (acts_on_comm _ _ _ _ HC1 HBA). clear. paths_apart. }
  assert (∀ fs, C2 (C1 (B (A (C2 (C1 (B (A fs))))))) = C2 (C1 (B (A fs))))
    as ICCBA.
  { apply (twice_compose C2 (λ fs, C1 (B (A fs)))); try done.
    apply (acts_on_comm _ _ _ _ HC2 HCBA). clear. paths_apart. }
  apply (twice_compose H (λ fs, C2 (C1 (B (A fs))))); try done.
  apply (acts_on_comm _ _ _ _ HH HCCBA). clear. paths_apart.
Qed.

Lemma update_all_components_idempotent_witness :
  files (snd (update_all_components (snd (update_all_components sample_state))))
  = files (snd (update_all_components sample_state)).
Proof.
  apply (update_all_components_idempotent sample_state). split; reflexivity.
Defined.

(** ** The exit status *)

Section exit_status.





End exit_status.


(** ** Searching after a substitution *)

Section search_facts.

Variables (re : regex).

Lemma search_from_match p s :
  is_Some (match_at re p s) → search_from re p s = true.
Proof. intros [n Hn]. destruct s; simpl; by rewrite Hn. Qed.

Lemma search_from_cons p c s :
  match_at re p (String c s) = None →
  search_from re p (String c s) = search_from re (Some c) s.
Proof. simpl. by intros ->. Qed.

Variable (R : string).

(** The replacement text has a match at its start, and where there is no
    match a pass over the text that follows makes none. *)
Hypothesis Hself : ∀ p T,
  anchor_ok (anchored re) p = true → is_Some (match_at re p (R +:+ T)).
Hypothesis Hnone : ∀ p c s',
  match_at re p (String c s') = None →
  match_at re p (String c (sub_from re R 0 (Some c) s')) = None.

Lemma search_after_sub s : ∀ p,
  search_from re p (sub_from re R 0 p s) = search_from re p s.
Proof.
  induction s as [|c s' IH]; intros p.
  - simpl. destruct (match_at re p "") as [n|] eqn:E; simpl; [|by rewrite E].
    apply match_at_anchor in E as [Ha _].
    rewrite <- (app_nil_r R). by apply search_from_match, Hself.
  - destruct (match_at re p (String c s')) as [[|n]|] eqn:E.
    + rewrite (search_from_match p (String c s')) by (by eexists).
      simpl. rewrite E. apply match_at_anchor in E as [Ha _].
      by apply search_from_match, Hself.
    + rewrite (search_from_match p (String c s')) by (by eexists).
      rewrite (sub_from_match _ _ _ _ _ _ E).
      apply match_at_anchor in E as [Ha _].
      by apply search_from_match, Hself.
    + rewrite (sub_from_no_match _ _ _ _ _ E).
      rewrite !search_from_cons by auto. apply IH.
Qed.

End search_facts.

Section rerun.

Variable v : string.
Hypothesis Hv : valid_version v.

Lemma backend_search_after_sub content :
  re_search backend_re (re_sub backend_re (backend_line v) content)
  = re_search backend_re content.
Proof.
  apply search_after_sub.
  - intros p T Hp. unfold match_at. rewrite Hp.
    rewrite (backend_self_match v Hv). by eexists.
  - apply (no_match_after_sub backend_re (backend_line v)
             (is_char "v"%char)
             (lit "ersion" ++
              [Star is_space; Chr (is_char "="%char); Star is_space;
               Chr (is_char dq); Star not_quote; Chr (is_char dq)])).
    + done.
    + simpl. repeat constructor.
    + by apply backend_cross.
Qed.

Lemma frontend_search_after_sub content :
  re_search frontend_re (re_sub frontend_re (frontend_line v) content)
  = re_search frontend_re content.
Proof.
  apply search_after_sub.
  - intros p T Hp. unfold match_at. rewrite Hp.
    rewrite (frontend_self_match v Hv). by eexists.
  - apply (no_match_after_sub frontend_re (frontend_line v)
             (is_char dq)
             (lit ("version" +:+ String dq ":") ++
              [Star is_space; Chr (is_char dq); Star not_quote;
               Chr (is_char dq)])).
    + done.
    + simpl. repeat constructor.
    + by apply frontend_cross.
Qed.

Lemma rewritable_after_rewrite p re repl fs :
  (∀ content, re_search re (re_sub re repl content) = re_search re content) →
  rewritable p re (rewrite_file p re repl fs) = rewritable p re fs.
Proof.
  intros Hs. unfold rewritable, rewrite_file.
  destruct (fs !! p) as [[[] [] content|]|] eqn:E; rewrite ?E; try done.
  destruct (re_search re content) eqn:Hc; [|by rewrite E].
  by rewrite lookup_insert_eq, Hs.
Qed.

End rerun.

(** X12. With a valid version in memory, a second run of the backend update
    returns what the first returned, and so does a second run of the
    frontend update: a file that was rewritten still has its version line,
    so the update goes through again. *)
Theorem update_rerun_same_result st :
  valid_version (version st) →
  fst (update_backend_version (snd (update_backend_version st)))
  = fst (update_backend_version st) ∧
  fst (update_frontend_version (snd (update_frontend_version st)))
  = fst (update_frontend_version st).
Proof.
  intros Hv. split.
  - destruct (update_backend_version_files st) as (F & V & R).
    rewrite !update_backend_version_result. f_equal.
    rewrite F. unfold cargo_file. rewrite R.
    by apply rewritable_after_rewrite, backend_search_after_sub.
  - destruct (update_frontend_version_files st) as (F & V & R).
    rewrite !update_frontend_version_result. f_equal.
    rewrite F. unfold package_file. rewrite R.
    by apply rewritable_after_rewrite, frontend_search_after_sub.
Qed.

Lemma update_rerun_same_result_witness :
  fst (update_backend_version (snd (update_backend_version sample_state)))
  = fst (update_backend_version sample_state).
Proof.
  apply (update_rerun_same_result sample_state). split; reflexivity.
Defined.

(** ** The TypeScript literal is replaced once *)

Section typescript_once.
Local Arguments String.append !_ _ / : simpl nomatch.
Local Arguments is_char : simpl never.

Variable v : string.
Hypothesis Hv : valid_version v.
Hypothesis Hne : v ≠ "1.0.0".

Lemma typescript_none p c s' :
  match_at typescript_re p (String c s') = None →
  match_at typescript_re p
    (String c (sub_from typescript_re (typescript_line v) 0 (Some c) s'))
  = None.
Proof.
  apply (no_match_after_sub typescript_re (typescript_line v)
           (is_char "r"%char) (lit "eturn '1.0.0'")).
  - done.
  - simpl. repeat constructor.
  - by apply typescript_cross.
Qed.

Lemma typescript_search_over_version w p T :
  all_chars version_char w = true →
  search_from typescript_re p (w +:+ String "'" T)
  = search_from typescript_re (Some "'"%char) T.
Proof.
  revert p. induction w as [|c w IH]; intros p Hw; [done|].
  rewrite all_chars_cons, andb_true_iff in Hw.
  destruct Hw as [[Hc _]%version_char_plain Hw].
  change (String c w +:+ String "'" T) with (String c (w +:+ String "'" T)).
  rewrite search_from_cons.
  - by apply IH.
  - unfold match_at. simpl. by rewrite Hc.
Qed.

(** A search over the replacement text finds nothing in it. *)
Lemma typescript_search_over_repl p T :
  search_from typescript_re p (typescript_line v +:+ T)
  = search_from typescript_re (Some "'"%char) T.
Proof.
  rewrite typescript_line_app.
  destruct (typescript_rematch v Hv T) as [E|E]; [done|].
  change ("return '" +:+ v +:+ String "'" T)
    with (String "r" ("eturn '" +:+ v +:+ String "'" T)).
  rewrite search_from_cons.
  2:{ unfold match_at. simpl. simpl in E. by rewrite E. }
  simpl. by apply typescript_search_over_version, valid_version_chars.
Qed.

Lemma typescript_search_gone s : ∀ skip p p',
  search_from typescript_re p'
    (sub_from typescript_re (typescript_line v) skip p s) = false.
Proof.
  induction s as [|c s' IH]; intros skip p p'.
  - by destruct skip.
  - destruct skip as [|k]; [|apply IH].
    destruct (match_at typescript_re p (String c s')) as [[|n]|] eqn:E.
    + by apply typescript_last in E as (? & ? & ? & _).
    + rewrite (sub_from_match _ _ _ _ _ _ E).
      rewrite typescript_search_over_repl. apply IH.
    + rewrite (sub_from_no_match _ _ _ _ _ E).
      rewrite search_from_cons; [apply IH|].
      rewrite <- (typescript_none p c s' E). by apply match_at_ctx.
Qed.

Lemma typescript_not_rewritable_after p fs :
  rewritable p typescript_re
    (rewrite_file p typescript_re (typescript_line v) fs) = false.
Proof.
  unfold rewritable, rewrite_file.
  destruct (fs !! p) as [[[] [] content|]|] eqn:E; rewrite ?E; try done.
  destruct (re_search typescript_re content) eqn:Hc; [|by rewrite E].
  rewrite lookup_insert_eq. apply typescript_search_gone.
Qed.

End typescript_once.

(** X13. The TypeScript update works once. After a run with a valid version
    other than 1.0.0 no file that was rewritten has the literal of the
    pattern any more: every later run, whatever the version in memory then
    is, returns [False] and changes no file, so the TypeScript files keep the
    version of the first run. *)
Theorem update_typescript_version_once st v2 :
  valid_version (version st) → version st ≠ "1.0.0" →
  ∃ st2,
    update_typescript_version
      (with_version v2 (snd (update_typescript_version st))) = (Ret false, st2) ∧
    files st2 = files (snd (update_typescript_version st)).
Proof.
  intros Hv Hne.
  destruct (update_typescript_version_files st) as (F & V & R).
  change (project_root st ++ ts_files !!! 0) with (ts_file_1 st) in F.
  change (project_root st ++ ts_files !!! 1) with (ts_file_2 st) in F.
  set (st1 := with_version v2 (snd (update_typescript_version st))).
  assert (files st1 = files (snd (update_typescript_version st))) as F1 by done.
  assert (ts_file_1 st1 = ts_file_1 st ∧ ts_file_2 st1 = ts_file_2 st)
    as [P1 P2] by (unfold ts_file_1, ts_file_2; simpl; by rewrite R).
  assert (ts_file_1 st ≠ ts_file_2 st) as Hapart
    by (unfold ts_file_1, ts_file_2; intros H%app_inv_head; discriminate H).
  assert (rewritable (ts_file_1 st) typescript_re (files st1) = false) as N1.
  { rewrite F1, F.
    rewrite (rewritable_lookup _ _ _
               (rewrite_file (ts_file_1 st) typescript_re
                  (typescript_line (version st)) (files st)))
      by (by apply rewrite_file_lookup_ne).
    by apply typescript_not_rewritable_after. }
  assert (rewritable (ts_file_2 st) typescript_re (files st1) = false) as N2.
  { rewrite F1, F. by apply typescript_not_rewritable_after. }
  pose proof (update_typescript_version_result st1) as Hr.
  pose proof (update_typescript_version_files st1) as (F2 & _ & _).
  change (project_root st1 ++ ts_files !!! 0) with (ts_file_1 st1) in F2.
  change (project_root st1 ++ ts_files !!! 1) with (ts_file_2 st1) in F2.
  rewrite P1, P2 in Hr, F2. rewrite N1, N2 in Hr.
  rewrite (rewrite_file_not_rewritable (ts_file_1 st)) in F2 by done.
  rewrite (rewrite_file_not_rewritable (ts_file_2 st)) in F2 by done.
  destruct (update_typescript_version st1) as [[b|] st2]; [|done].
  simpl in *. injection Hr as ->. exists st2. by rewrite F2.
Qed.

Lemma update_typescript_version_once_witness :
  ∃ st2,
    update_typescript_version
      (with_version "1.2.4" (snd (update_typescript_version sample_ts_state)))
    = (Ret false, st2) ∧
    files st2 = files (snd (update_typescript_version sample_ts_state)).
Proof.
  apply (update_typescript_version_once sample_ts_state "1.2.4").
  - split; reflexivity.
  - discriminate.
Defined.

(** The sample: the first run puts 1.2.3 into the file; after a bump to
    1.2.4 the file still says 1.2.3. *)
Example update_typescript_sample :
  fst (update_typescript_version sample_ts_state) = Ret true ∧
  files (snd (update_typescript_version
                (with_version "1.2.4"
                   (snd (update_typescript_version sample_ts_state)))))
    !! ["frontend"; "src"; "services"; "AutoUpdater.ts"]
  = Some (File true true "getVersion() { return '1.2.3'; }").
Proof. by vm_compute. Qed.

(** ** A bump from the command line *)

Section main_bump.



End main_bump.



(** * Properties of the build script *)

Section build_properties.

Import Build.

Variable exec :
  string → option path → gmap path node → completed * gmap path node.

Local Arguments cwd_error : simpl never.

Ltac build_run :=
  unfold run_command, try_except_called, subprocess_run, exists_, print,
    mbind, Run_bind, mret, Run_ret; simpl.

Ltac close_console :=
  rewrite <- ?app_assoc; eexists; reflexivity.


(** [run_command] in a working directory that is not there: the error of
    starting the process is not caught, and nothing is run. *)
Lemma run_command_unusable (c : string) (cwd : option path) (check : bool)
    (st : env) (e : error) :
  cwd_error (files st) cwd = Some e →
  ∃ out,
    run_command exec c cwd check st
    = (Raised e, Env (files st) (console st ++ out) (trace st)).
Proof.
  intros Hc. build_run.
  destruct cwd as [d|]; simpl; rewrite ?Hc.
  - destruct e; try close_console.
    unfold cwd_error in Hc. destruct (files st !! d) as [[]|]; discriminate.
  - discriminate.
Qed.

Local Arguments run_command : simpl never.

Ltac builder :=
  unfold exists_, print, mbind, Run_bind, mret, Run_ret, path_exists; simpl.


Ltac run_unusable e :=
  match goal with
  | |- context [run_command exec ?c ?cwd ?chk ?s] =>
      let out := fresh "out" in
      let H := fresh "H" in
      destruct (run_command_unusable c cwd chk s e) as [out H];
      [ unfold cwd_error; simpl
      | simpl in H; rewrite H; clear H; simpl ]
  end.






(** X20. [build_electron_package] does not look for the [frontend]
    directory: when it is missing or is a file, the function does not
    return [False] but lets the error of starting the first packager run
    escape, and no command is run. *)
Theorem build_electron_package_no_directory (st : env) (e : error) :
  cwd_error (files st) (Some frontend_dir) = Some e →
  ∃ out,
    build_electron_package exec st
    = (Raised e, Env (files st) (console st ++ out) (trace st)).
Proof.
  intros He. unfold build_electron_package. builder.
  run_unusable e; [exact He|].
  close_console.
Qed.

End build_properties.



Lemma build_electron_package_no_directory_witness :
  ∃ out,
    Build.build_electron_package (Build.sample_exec Build.all_tools)
      (Build.Env ∅ [] [])
    = (Build.Raised (Build.NoSuchDirectory "frontend"),
       Build.Env ∅ ([] ++ out) []).
Proof.
  apply (build_electron_package_no_directory
           (Build.sample_exec Build.all_tools) (Build.Env ∅ [] [])).
  reflexivity.
Defined.
